(** * The chat front end of the Q&A assistant ([static/app.js])

    A shallow embedding of the page controller: the text helpers
    ([escapeHtml], [formatText]), the DOM writers ([addUserMessage],
    [addAIMessage], [addErrorMessage], [addTypingIndicator],
    [removeTypingIndicator], [showToast], [setLoadingState]), the
    asynchronous submit handler [handleSubmit] and [clearChat].

    JavaScript strings are sequences of UTF-16 code units, and the regular
    expressions of the file carry no [u] flag, so they work on code units
    too: a string is a [list N] here.

    [handleSubmit] is an [async] function with two [await]s.  A call is
    modelled by its segments between suspensions: [handleSubmit] runs it
    up to [await fetch(...)], [handleSubmit_settle] runs the rest once the
    awaited promises have settled, and the event loop [step] interleaves
    the segments with the other handlers, as the browser does.

    Left out: [e.preventDefault()], which acts on the event only; the
    scroll position, which depends on layout; the timers that take a toast
    away after three seconds; the navigation handlers, which write none of
    the properties modelled here except the toast list. *)

From Stdlib Require Import String Ascii.
From Stdlib Require Import List NArith ZArith Arith Bool Lia PrimFloat.
From Stdlib Require Import DecimalNat.
Import ListNotations.

(* ================================================================== *)
(** ** Strings *)
(* ================================================================== *)

Module JsString.

(** A code unit and a string. *)
Abbreviation char := N (only parsing).
Definition jsstring := list char.

(** The code unit of an ASCII character, and the string of an ASCII
    literal. *)
Definition chr (a : ascii) : char := N_of_ascii a.

Fixpoint lit (s : string) : jsstring :=
  match s with
  | EmptyString => []
  | String a s' => chr a :: lit s'
  end.

(** The double quote, the apostrophe and the line feed. *)
Definition dquote : char := 34%N.
Definition squote : char := 39%N.
Definition LF : char := 10%N.

Definition dq : jsstring := [dquote].
Definition nl : jsstring := [LF].

Fixpoint eqb (s t : jsstring) : bool :=
  match s, t with
  | [], [] => true
  | c :: s', d :: t' => N.eqb c d && eqb s' t'
  | _, _ => false
  end.

(** ECMAScript's WhiteSpace and LineTerminator code points: what [\s]
    matches in a regular expression and what [String.prototype.trim]
    strips. *)
Definition isWhiteSpace (c : char) : bool :=
  ((9 <=? c) && (c <=? 13) ||
   (c =? 32) || (c =? 160) || (c =? 5760) ||
   (8192 <=? c) && (c <=? 8202) ||
   (c =? 8232) || (c =? 8233) || (c =? 8239) || (c =? 8287) ||
   (c =? 12288) || (c =? 65279))%N.

(** The class [[^\s]]. *)
Definition nonws (c : char) : bool := negb (isWhiteSpace c).

Fixpoint trimStart (s : jsstring) : jsstring :=
  match s with
  | [] => []
  | c :: s' => if isWhiteSpace c then trimStart s' else s
  end.

Definition trimEnd (s : jsstring) : jsstring := rev (trimStart (rev s)).

(** [String.prototype.trim] *)
Definition trim (s : jsstring) : jsstring := trimEnd (trimStart s).

End JsString.
Import JsString.

(* ================================================================== *)
(** ** Regular expressions and [String.prototype.replace] *)
(* ================================================================== *)

Module RegExp.

(** The fragment of the pattern language that the file uses.  The one
    capture group of the file wraps a whole pattern, so group 1 is the
    match itself. *)
Inductive regex :=
| Eps
| Chr (c : char)
| Class (p : char -> bool)
| Cat (r1 r2 : regex)
| Opt (r : regex)
| Plus (r : regex).

(** A pattern is a sequence of terms. *)
Fixpoint Seq (rs : list regex) : regex :=
  match rs with
  | [] => Eps
  | r :: rs' => Cat r (Seq rs')
  end.

(** The iterations of a quantified term whose single matches [m] lists:
    after a non-empty match the matcher first tries to go on, then to
    stop.  [fuel] bounds the number of iterations; the length of the
    string is enough, as each iteration takes a character at least. *)
Fixpoint iterate (m : jsstring -> list nat) (fuel : nat) (s : jsstring)
  : list nat :=
  match fuel with
  | O => []
  | S fuel' =>
      flat_map
        (fun n =>
           match n with
           | O => []
           | S _ => map (Nat.add n) (iterate m fuel' (skipn n s) ++ [0])
           end)
        (m s)
  end.

(** The lengths of the matches of [r] at the start of [s], in the order
    in which a backtracking matcher tries them: greedy quantifiers take
    the longer alternative first. *)
Fixpoint matches (r : regex) (s : jsstring) : list nat :=
  match r with
  | Eps => [0]
  | Chr c =>
      match s with
      | d :: _ => if N.eqb c d then [1] else []
      | [] => []
      end
  | Class p =>
      match s with
      | d :: _ => if p d then [1] else []
      | [] => []
      end
  | Cat r1 r2 =>
      flat_map (fun n => map (Nat.add n) (matches r2 (skipn n s)))
               (matches r1 s)
  | Opt r1 => matches r1 s ++ [0]
  | Plus r1 => iterate (matches r1) (length s) s
  end.

(** The match the engine reports at the start of [s]: the first one. *)
Definition exec_at (r : regex) (s : jsstring) : option nat :=
  hd_error (matches r s).

(** [s.replace(/r/g, f)]: the matcher scans from the left; at a match the
    replacement [f match] is emitted and the scan resumes after the match
    ([skip] counts the characters of the match still to be passed over);
    elsewhere the character is copied.  An empty match emits its
    replacement and the scan moves one character on. *)
Fixpoint replace_from (r : regex) (f : jsstring -> jsstring)
         (skip : nat) (s : jsstring) : jsstring :=
  match s with
  | [] =>
      match skip, exec_at r [] with
      | O, Some _ => f []
      | _, _ => []
      end
  | c :: s' =>
      match skip with
      | S k => replace_from r f k s'
      | O =>
          match exec_at r s with
          | Some (S n) => f (firstn (S n) s) ++ replace_from r f n s'
          | Some O => f [] ++ c :: replace_from r f 0 s'
          | None => c :: replace_from r f 0 s'
          end
      end
  end.

Definition replace_g (r : regex) (f : jsstring -> jsstring)
           (s : jsstring) : jsstring :=
  replace_from r f 0 s.

(** A replacement given as a string: [$1] (and [$&]) stand for the match,
    [$$] for a dollar sign. *)
Fixpoint template (t : jsstring) (m : jsstring) : jsstring :=
  match t with
  | [] => []
  | c :: t' =>
      if N.eqb c (chr "$") then
        match t' with
        | d :: t'' =>
            if N.eqb d (chr "1") || N.eqb d (chr "&") then m ++ template t'' m
            else if N.eqb d (chr "$") then chr "$" :: template t'' m
            else c :: template t' m
        | [] => [c]
        end
      else c :: template t' m
  end.

End RegExp.
Import RegExp.

(* ================================================================== *)
(** ** Values and completions *)
(* ================================================================== *)

Module Js.

(** A JavaScript value as [response.json()] can produce it, with
    [undefined] for the properties that are read but absent.  An object
    is listed by its own properties; a key's value is its first binding. *)
#[local] Unset Elimination Schemes.
Inductive Value :=
| VUndefined
| VNull
| VBool (b : bool)
| VNumber (x : float)
| VString (s : jsstring)
| VArray (items : list Value)
| VObject (props : list (jsstring * Value)).
#[local] Set Elimination Schemes.

(** What a [throw] or a rejected promise carries. *)
Inductive Exn :=
| TypeError
| SyntaxError
| NetworkError.

Inductive Completion (A : Type) :=
| Normal (a : A)
| Throw (e : Exn).
Arguments Normal {A} a.
Arguments Throw {A} e.

Fixpoint lookup {A : Type} (k : jsstring) (l : list (jsstring * A)) : option A :=
  match l with
  | [] => None
  | (k', v) :: l' => if JsString.eqb k k' then Some v else lookup k l'
  end.

(** [v.key] for the two keys the file reads, [answer] and [error]:
    reading a property of [null] or [undefined] throws; a primitive or an
    array has neither key (nor do their prototypes); an object yields its
    own property or [undefined]. *)
Definition get_prop (v : Value) (key : jsstring) : Completion Value :=
  match v with
  | VUndefined | VNull => Throw TypeError
  | VObject props =>
      match lookup key props with
      | Some x => Normal x
      | None => Normal VUndefined
      end
  | _ => Normal VUndefined
  end.

(** ToBoolean *)
Definition truthy (v : Value) : bool :=
  match v with
  | VUndefined | VNull => false
  | VBool b => b
  | VNumber x => negb (PrimFloat.eqb x 0%float || PrimFloat.is_nan x)
  | VString s => match s with [] => false | _ => true end
  | VArray _ | VObject _ => true
  end.

(** [a || b] *)
Definition or_else (a b : Value) : Value := if truthy a then a else b.

End Js.
Import Js.

(* ================================================================== *)
(** ** Text helpers: [escapeHtml] and [formatText] *)
(* ================================================================== *)

(** The object literal [map] of [escapeHtml]. *)
Definition escape_map : list (jsstring * jsstring) :=
  [ (lit "&", lit "&amp;");
    (lit "<", lit "&lt;");
    (lit ">", lit "&gt;");
    (dq, lit "&quot;");
    ([squote], lit "&#039;") ].

(** The character class of [escapeHtml]'s pattern: ampersand, the two
    angle brackets, the double quote and the apostrophe. *)
Definition special (c : char) : bool :=
  existsb (N.eqb c) [chr "&"; chr "<"; chr ">"; dquote; squote].

Definition re_special : regex := Class special.

(** The callback [(m) => map[m]]; a missing key would read [undefined],
    which [replace] prints. *)
Definition escape_match (m : jsstring) : jsstring :=
  match lookup m escape_map with
  | Some e => e
  | None => lit "undefined"
  end.

(** The global replace of [escapeHtml] on a string. *)
Definition escapeHtml_string (text : jsstring) : jsstring :=
  replace_g re_special escape_match text.

(** [escapeHtml(text)].  Only a string has a callable [replace]: on
    [undefined] and [null] the property read throws, on any other value
    [text.replace] is not a function. *)
Definition escapeHtml (text : Value) : Completion jsstring :=
  match text with
  | VString s => Normal (escapeHtml_string s)
  | _ => Throw TypeError
  end.

(** The pattern [(https?:\/\/[^\s]+)]. *)
Definition re_url : regex :=
  Seq [ Chr (chr "h"); Chr (chr "t"); Chr (chr "t"); Chr (chr "p");
        Opt (Chr (chr "s"));
        Chr (chr ":"); Chr (chr "/"); Chr (chr "/");
        Plus (Class nonws) ].

(** The replacement string: an anchor whose [href] attribute and whose
    text are both [$1], with [target] set to [_blank] and [rel] to
    [noopener]. *)
Definition anchor_template : jsstring :=
  lit "<a href=" ++ dq ++ lit "$1" ++ dq ++
  lit " target=" ++ dq ++ lit "_blank" ++ dq ++
  lit " rel=" ++ dq ++ lit "noopener" ++ dq ++ lit ">$1</a>".

(** The pattern [\n] and its replacement. *)
Definition re_newline : regex := Chr LF.
Definition br : jsstring := lit "<br>".

(** [formatText(text)]: escape, link the URLs, break the lines. *)
Definition formatText (text : Value) : Completion jsstring :=
  match escapeHtml text with
  | Normal formatted =>
      let formatted := replace_g re_url (template anchor_template) formatted in
      let formatted := replace_g re_newline (fun _ => br) formatted in
      Normal formatted
  | Throw e => Throw e
  end.

(** What [formatText] returns on a string. *)
Definition formatText_string (text : jsstring) : jsstring :=
  replace_g re_newline (fun _ => br)
    (replace_g re_url (template anchor_template) (escapeHtml_string text)).

(* ================================================================== *)
(** ** The page *)
(* ================================================================== *)

(** A child of [#chatMessages] or of [#toastContainer]. *)
Record Element := mkElement {
  className : jsstring;
  id : jsstring;
  innerHTML : jsstring
}.

(** An entry of [conversationHistory]; [timestamp] is the value of
    [new Date()] in milliseconds. *)
Record Turn := mkTurn {
  question : jsstring;
  answer : Value;
  timestamp : Z
}.

(** A call of [fetch]: the address, the method, the content type header
    and the value that [JSON.stringify] serialises into the body. *)
Record Request := mkRequest {
  url : jsstring;
  method : jsstring;
  contentType : jsstring;
  payload : Value
}.

(** [style.height] of the text area. *)
Inductive CssHeight :=
| Auto
| Px (n : N).

(** The module's two variables and the properties of the page that its
    functions write.  [welcomeScreen_display] is [None] when the page has
    no [#welcomeScreen] (the variable is then [null]); the other elements
    that the script looks up at load time are used unguarded everywhere and
    are taken to exist.  [toastContainer] lists the toasts in the order
    shown; their timed removal is not part of the state.  Scrolling, which
    depends on layout, is left out.  The page is taken to hold no element
    with the id [typingIndicator] other than the one the script adds to
    [#chatMessages], and [#welcomeScreen] to lie outside [#chatMessages]. *)
Record State := mkState {
  questionInput_value : jsstring;
  questionInput_height : CssHeight;
  submitBtn_disabled : bool;
  spinner_hidden : bool;
  btnIcon_hidden : bool;
  btnText_textContent : jsstring;
  chatMessages : list Element;
  welcomeScreen_display : option jsstring;
  toastContainer : list Element;
  conversationHistory : list Turn;
  isLoading : bool;
  console_errors : list Exn;
  network : list Request
}.

Definition set_questionInput_value (v : jsstring) (s : State) : State :=
  {| questionInput_value := v;
     questionInput_height := questionInput_height s;
     submitBtn_disabled := submitBtn_disabled s;
     spinner_hidden := spinner_hidden s;
     btnIcon_hidden := btnIcon_hidden s;
     btnText_textContent := btnText_textContent s;
     chatMessages := chatMessages s;
     welcomeScreen_display := welcomeScreen_display s;
     toastContainer := toastContainer s;
     conversationHistory := conversationHistory s;
     isLoading := isLoading s;
     console_errors := console_errors s;
     network := network s |}.

Definition set_questionInput_height (v : CssHeight) (s : State) : State :=
  {| questionInput_value := questionInput_value s;
     questionInput_height := v;
     submitBtn_disabled := submitBtn_disabled s;
     spinner_hidden := spinner_hidden s;
     btnIcon_hidden := btnIcon_hidden s;
     btnText_textContent := btnText_textContent s;
     chatMessages := chatMessages s;
     welcomeScreen_display := welcomeScreen_display s;
     toastContainer := toastContainer s;
     conversationHistory := conversationHistory s;
     isLoading := isLoading s;
     console_errors := console_errors s;
     network := network s |}.

Definition set_submitBtn_disabled (v : bool) (s : State) : State :=
  {| questionInput_value := questionInput_value s;
     questionInput_height := questionInput_height s;
     submitBtn_disabled := v;
     spinner_hidden := spinner_hidden s;
     btnIcon_hidden := btnIcon_hidden s;
     btnText_textContent := btnText_textContent s;
     chatMessages := chatMessages s;
     welcomeScreen_display := welcomeScreen_display s;
     toastContainer := toastContainer s;
     conversationHistory := conversationHistory s;
     isLoading := isLoading s;
     console_errors := console_errors s;
     network := network s |}.

Definition set_spinner_hidden (v : bool) (s : State) : State :=
  {| questionInput_value := questionInput_value s;
     questionInput_height := questionInput_height s;
     submitBtn_disabled := submitBtn_disabled s;
     spinner_hidden := v;
     btnIcon_hidden := btnIcon_hidden s;
     btnText_textContent := btnText_textContent s;
     chatMessages := chatMessages s;
     welcomeScreen_display := welcomeScreen_display s;
     toastContainer := toastContainer s;
     conversationHistory := conversationHistory s;
     isLoading := isLoading s;
     console_errors := console_errors s;
     network := network s |}.

Definition set_btnIcon_hidden (v : bool) (s : State) : State :=
  {| questionInput_value := questionInput_value s;
     questionInput_height := questionInput_height s;
     submitBtn_disabled := submitBtn_disabled s;
     spinner_hidden := spinner_hidden s;
     btnIcon_hidden := v;
     btnText_textContent := btnText_textContent s;
     chatMessages := chatMessages s;
     welcomeScreen_display := welcomeScreen_display s;
     toastContainer := toastContainer s;
     conversationHistory := conversationHistory s;
     isLoading := isLoading s;
     console_errors := console_errors s;
     network := network s |}.

Definition set_btnText_textContent (v : jsstring) (s : State) : State :=
  {| questionInput_value := questionInput_value s;
     questionInput_height := questionInput_height s;
     submitBtn_disabled := submitBtn_disabled s;
     spinner_hidden := spinner_hidden s;
     btnIcon_hidden := btnIcon_hidden s;
     btnText_textContent := v;
     chatMessages := chatMessages s;
     welcomeScreen_display := welcomeScreen_display s;
     toastContainer := toastContainer s;
     conversationHistory := conversationHistory s;
     isLoading := isLoading s;
     console_errors := console_errors s;
     network := network s |}.

Definition set_chatMessages (v : list Element) (s : State) : State :=
  {| questionInput_value := questionInput_value s;
     questionInput_height := questionInput_height s;
     submitBtn_disabled := submitBtn_disabled s;
     spinner_hidden := spinner_hidden s;
     btnIcon_hidden := btnIcon_hidden s;
     btnText_textContent := btnText_textContent s;
     chatMessages := v;
     welcomeScreen_display := welcomeScreen_display s;
     toastContainer := toastContainer s;
     conversationHistory := conversationHistory s;
     isLoading := isLoading s;
     console_errors := console_errors s;
     network := network s |}.

Definition set_welcomeScreen_display (v : option jsstring) (s : State) : State :=
  {| questionInput_value := questionInput_value s;
     questionInput_height := questionInput_height s;
     submitBtn_disabled := submitBtn_disabled s;
     spinner_hidden := spinner_hidden s;
     btnIcon_hidden := btnIcon_hidden s;
     btnText_textContent := btnText_textContent s;
     chatMessages := chatMessages s;
     welcomeScreen_display := v;
     toastContainer := toastContainer s;
     conversationHistory := conversationHistory s;
     isLoading := isLoading s;
     console_errors := console_errors s;
     network := network s |}.

Definition set_toastContainer (v : list Element) (s : State) : State :=
  {| questionInput_value := questionInput_value s;
     questionInput_height := questionInput_height s;
     submitBtn_disabled := submitBtn_disabled s;
     spinner_hidden := spinner_hidden s;
     btnIcon_hidden := btnIcon_hidden s;
     btnText_textContent := btnText_textContent s;
     chatMessages := chatMessages s;
     welcomeScreen_display := welcomeScreen_display s;
     toastContainer := v;
     conversationHistory := conversationHistory s;
     isLoading := isLoading s;
     console_errors := console_errors s;
     network := network s |}.

Definition set_conversationHistory (v : list Turn) (s : State) : State :=
  {| questionInput_value := questionInput_value s;
     questionInput_height := questionInput_height s;
     submitBtn_disabled := submitBtn_disabled s;
     spinner_hidden := spinner_hidden s;
     btnIcon_hidden := btnIcon_hidden s;
     btnText_textContent := btnText_textContent s;
     chatMessages := chatMessages s;
     welcomeScreen_display := welcomeScreen_display s;
     toastContainer := toastContainer s;
     conversationHistory := v;
     isLoading := isLoading s;
     console_errors := console_errors s;
     network := network s |}.

Definition set_isLoading (v : bool) (s : State) : State :=
  {| questionInput_value := questionInput_value s;
     questionInput_height := questionInput_height s;
     submitBtn_disabled := submitBtn_disabled s;
     spinner_hidden := spinner_hidden s;
     btnIcon_hidden := btnIcon_hidden s;
     btnText_textContent := btnText_textContent s;
     chatMessages := chatMessages s;
     welcomeScreen_display := welcomeScreen_display s;
     toastContainer := toastContainer s;
     conversationHistory := conversationHistory s;
     isLoading := v;
     console_errors := console_errors s;
     network := network s |}.

Definition set_console_errors (v : list Exn) (s : State) : State :=
  {| questionInput_value := questionInput_value s;
     questionInput_height := questionInput_height s;
     submitBtn_disabled := submitBtn_disabled s;
     spinner_hidden := spinner_hidden s;
     btnIcon_hidden := btnIcon_hidden s;
     btnText_textContent := btnText_textContent s;
     chatMessages := chatMessages s;
     welcomeScreen_display := welcomeScreen_display s;
     toastContainer := toastContainer s;
     conversationHistory := conversationHistory s;
     isLoading := isLoading s;
     console_errors := v;
     network := network s |}.

Definition set_network (v : list Request) (s : State) : State :=
  {| questionInput_value := questionInput_value s;
     questionInput_height := questionInput_height s;
     submitBtn_disabled := submitBtn_disabled s;
     spinner_hidden := spinner_hidden s;
     btnIcon_hidden := btnIcon_hidden s;
     btnText_textContent := btnText_textContent s;
     chatMessages := chatMessages s;
     welcomeScreen_display := welcomeScreen_display s;
     toastContainer := toastContainer s;
     conversationHistory := conversationHistory s;
     isLoading := isLoading s;
     console_errors := console_errors s;
     network := v |}.

(* ================================================================== *)
(** ** Statements: state and exceptions *)
(* ================================================================== *)

(** A statement runs on the page and completes normally or throws; what
    it wrote before throwing stays written. *)
Definition M (A : Type) : Type := State -> State * Completion A.

Definition ret {A : Type} (a : A) : M A := fun s => (s, Normal a).

Definition bind {A B : Type} (c : M A) (k : A -> M B) : M B :=
  fun s =>
    match c s with
    | (s', Normal a) => k a s'
    | (s', Throw e) => (s', Throw e)
    end.

Definition throw {A : Type} (e : Exn) : M A := fun s => (s, Throw e).

Definition get : M State := fun s => (s, Normal s).

Definition modify (f : State -> State) : M unit := fun s => (f s, Normal tt).

(** An expression that may throw. *)
Definition eval {A : Type} (c : Completion A) : M A := fun s => (s, c).

(** [try { body } catch (error) { handler } finally { final }] *)
Definition try_catch_finally {A : Type}
           (body : M A) (handler : Exn -> M A) (final : M unit) : M A :=
  fun s =>
    let (s1, r1) := body s in
    let (s2, r2) :=
      match r1 with
      | Normal a => (s1, Normal a)
      | Throw e => handler e s1
      end in
    match final s2 with
    | (s3, Normal _) => (s3, r2)
    | (s3, Throw e) => (s3, Throw e)
    end.

Declare Scope js_scope.
Delimit Scope js_scope with js.
Notation "x <- c1 ;; c2" := (bind c1 (fun x => c2))
  (at level 61, c1 at next level, right associativity) : js_scope.
Notation "c1 ;; c2" := (bind c1 (fun _ => c2))
  (at level 61, right associativity) : js_scope.
Open Scope js_scope.

Definition exec {A : Type} (c : M A) (s : State) : State := fst (c s).

(* ================================================================== *)
(** ** DOM writers *)
(* ================================================================== *)

Definition appendChild_chatMessages (e : Element) : M unit :=
  modify (fun s => set_chatMessages (chatMessages s ++ [e]) s).

Definition appendChild_toastContainer (e : Element) : M unit :=
  modify (fun s => set_toastContainer (toastContainer s ++ [e]) s).

(** The markup shared by the user, assistant and error messages: a label
    and a content block, laid out as the template literals are. *)
Definition message_html (label content : jsstring) : jsstring :=
  nl ++ lit "    <div>" ++
  nl ++ lit "      <div class=" ++ dq ++ lit "message-label" ++ dq ++
        lit ">" ++ label ++ lit "</div>" ++
  nl ++ lit "      <div class=" ++ dq ++ lit "message-content" ++ dq ++
        lit ">" ++ content ++ lit "</div>" ++
  nl ++ lit "    </div>" ++
  nl ++ lit "  ".

Definition userMessage (content : jsstring) : Element :=
  {| className := lit "message message-user";
     id := [];
     innerHTML := message_html (lit "You") content |}.

Definition aiMessage (content : jsstring) : Element :=
  {| className := lit "message message-ai";
     id := [];
     innerHTML := message_html (lit "AI Assistant") content |}.

Definition errorMessage (content : jsstring) : Element :=
  {| className := lit "message message-error";
     id := [];
     innerHTML := message_html (lit "Error") content |}.

Definition typing_html : jsstring :=
  nl ++ lit "    <div>" ++
  nl ++ lit "      <div class=" ++ dq ++ lit "message-label" ++ dq ++
        lit ">AI Assistant</div>" ++
  nl ++ lit "      <div class=" ++ dq ++ lit "message-content" ++ dq ++ lit ">" ++
  nl ++ lit "        <div class=" ++ dq ++ lit "typing-indicator" ++ dq ++ lit ">" ++
  nl ++ lit "          <div class=" ++ dq ++ lit "typing-dot" ++ dq ++ lit "></div>" ++
  nl ++ lit "          <div class=" ++ dq ++ lit "typing-dot" ++ dq ++ lit "></div>" ++
  nl ++ lit "          <div class=" ++ dq ++ lit "typing-dot" ++ dq ++ lit "></div>" ++
  nl ++ lit "        </div>" ++
  nl ++ lit "      </div>" ++
  nl ++ lit "    </div>" ++
  nl ++ lit "  ".

Definition typingIndicator : Element :=
  {| className := lit "message message-ai";
     id := lit "typingIndicator";
     innerHTML := typing_html |}.

Definition addUserMessage (text : Value) : M unit :=
  content <- eval (escapeHtml text) ;;
  appendChild_chatMessages (userMessage content).

Definition addAIMessage (text : Value) : M unit :=
  content <- eval (formatText text) ;;
  appendChild_chatMessages (aiMessage content).

Definition addTypingIndicator : M unit :=
  appendChild_chatMessages typingIndicator.

Definition is_typingIndicator (e : Element) : bool :=
  JsString.eqb (id e) (lit "typingIndicator").

(** Removing the element that [getElementById("typingIndicator")] finds:
    the first one with that id, if any. *)
Fixpoint remove_first (p : Element -> bool) (l : list Element) : list Element :=
  match l with
  | [] => []
  | e :: l' => if p e then l' else e :: remove_first p l'
  end.

Definition removeTypingIndicator : M unit :=
  modify (fun s =>
            set_chatMessages (remove_first is_typingIndicator (chatMessages s)) s).

Definition addErrorMessage (text : Value) : M unit :=
  content <- eval (escapeHtml text) ;;
  appendChild_chatMessages (errorMessage content).

(** [classList.toggle("hidden", force)] leaves the class present exactly
    when [force] holds. *)
Definition setLoadingState (loading : bool) : M unit :=
  modify (set_isLoading loading) ;;
  modify (set_submitBtn_disabled loading) ;;
  modify (set_spinner_hidden (negb loading)) ;;
  modify (set_btnIcon_hidden loading) ;;
  modify (set_btnText_textContent
            (if loading then lit "Sending..." else lit "Send")).

(** The icon table of [showToast], by code point: check mark, multiplication
    x, information source; the fallback is the black circle. *)
Definition toast_icons : list (jsstring * jsstring) :=
  [ (lit "success", [10003%N]);
    (lit "error", [10005%N]);
    (lit "info", [8505%N]) ].

(** The table is an object literal, so a key that is not its own is looked
    up in [Object.prototype].  What is found there is a function, or for
    [__proto__] the prototype itself: all are truthy, so they are the icon,
    printed by the template literal.  The text of a built-in function is
    the host's; this is the one of V8. *)
Definition native_function (name : jsstring) : jsstring :=
  lit "function " ++ name ++ lit "() { [native code] }".

Definition object_prototype : list (jsstring * jsstring) :=
  [ (lit "constructor", native_function (lit "Object"));
    (lit "__defineGetter__", native_function (lit "__defineGetter__"));
    (lit "__defineSetter__", native_function (lit "__defineSetter__"));
    (lit "hasOwnProperty", native_function (lit "hasOwnProperty"));
    (lit "__lookupGetter__", native_function (lit "__lookupGetter__"));
    (lit "__lookupSetter__", native_function (lit "__lookupSetter__"));
    (lit "isPrototypeOf", native_function (lit "isPrototypeOf"));
    (lit "propertyIsEnumerable", native_function (lit "propertyIsEnumerable"));
    (lit "toString", native_function (lit "toString"));
    (lit "valueOf", native_function (lit "valueOf"));
    (lit "__proto__", lit "[object Object]");
    (lit "toLocaleString", native_function (lit "toLocaleString")) ].

Definition toast_icon (type : jsstring) : jsstring :=
  match lookup type toast_icons with
  | Some icon => icon
  | None =>
      match lookup type object_prototype with
      | Some inherited => inherited
      | None => [9679%N]
      end
  end.

Definition toast_html (icon content : jsstring) : jsstring :=
  nl ++ lit "    <span style=" ++ dq ++
        lit "font-weight: bold; font-size: 1.2em;" ++ dq ++
        lit ">" ++ icon ++ lit "</span>" ++
  nl ++ lit "    <span>" ++ content ++ lit "</span>" ++
  nl ++ lit "  ".

Definition toast (type icon content : jsstring) : Element :=
  {| className := lit "toast " ++ type;
     id := [];
     innerHTML := toast_html icon content |}.

Definition showToast (message : Value) (type : jsstring) : M unit :=
  let icon := toast_icon type in
  content <- eval (escapeHtml message) ;;
  appendChild_toastContainer (toast type icon content).

(* ================================================================== *)
(** ** [handleSubmit] *)
(* ================================================================== *)

Definition API_URL : jsstring := lit "/api/ask".

(** [fetch(API_URL, ...)]: the request leaves. *)
Definition fetch (question : jsstring) : M unit :=
  modify (fun s =>
            set_network
              (network s ++
               [ {| url := API_URL;
                    method := lit "POST";
                    contentType := lit "application/json";
                    payload := VObject [(lit "question", VString question)] |} ])
              s).

(** Where a call of [handleSubmit] is suspended: at [await fetch(...)], or
    at [await response.json()] with [response.ok] known.  Both hold the
    local [question]. *)
Inductive Pending :=
| AwaitFetch (question : jsstring)
| AwaitJson (question : jsstring) (ok : bool).

(** [handleSubmit(e)] from the entry to the first [await]: [None] when the
    call returns at once, the suspended call otherwise. *)
Definition handleSubmit : M (option Pending) :=
  s <- get ;;
  let question := trim (questionInput_value s) in
  if negb (truthy (VString question)) || isLoading s then ret None
  else
    match welcomeScreen_display s with
    | Some _ => modify (set_welcomeScreen_display (Some (lit "none")))
    | None => ret tt
    end ;;
    addUserMessage (VString question) ;;
    modify (set_questionInput_value []) ;;
    modify (set_questionInput_height Auto) ;;
    setLoadingState true ;;
    addTypingIndicator ;;
    fetch question ;;
    ret (Some (AwaitFetch question)).

(** The [try] block once [data] is there. *)
Definition handleSubmit_response
           (question : jsstring) (ok : bool) (data : Value) (now : Z) : M unit :=
  removeTypingIndicator ;;
  if ok then
    a <- eval (get_prop data (lit "answer")) ;;
    addAIMessage a ;;
    a' <- eval (get_prop data (lit "answer")) ;;
    modify (fun s =>
              set_conversationHistory
                (conversationHistory s ++
                 [ {| question := question; answer := a'; timestamp := now |} ])
                s) ;;
    showToast (VString (lit "Message sent successfully")) (lit "success")
  else
    e <- eval (get_prop data (lit "error")) ;;
    addErrorMessage
      (or_else e (VString (lit "An error occurred while getting the answer."))) ;;
    e' <- eval (get_prop data (lit "error")) ;;
    showToast (or_else e' (VString (lit "Error"))) (lit "error").

Definition handleSubmit_catch (error : Exn) : M unit :=
  modify (fun s => set_console_errors (console_errors s ++ [error]) s) ;;
  removeTypingIndicator ;;
  addErrorMessage
    (VString (lit "Failed to connect to the server. Please make sure the backend is running.")) ;;
  showToast (VString (lit "Connection error")) (lit "error").

Definition handleSubmit_finally : M unit := setLoadingState false.

(** The rest of a suspended call, from the settlement of the awaited
    promises: a rejection of either is thrown inside [try]; otherwise the
    status flag and the parsed body arrive. *)
Definition handleSubmit_settle
           (question : jsstring) (outcome : Completion (bool * Value)) (now : Z)
  : M unit :=
  try_catch_finally
    (match outcome with
     | Normal (ok, data) => handleSubmit_response question ok data now
     | Throw e => throw e
     end)
    handleSubmit_catch
    handleSubmit_finally.

(* ================================================================== *)
(** ** [clearChat] and the text area *)
(* ================================================================== *)

(** [confirmed] is the answer to [confirm(...)].  [welcomeScreen] is used
    unguarded here: on a page without it the assignment throws. *)
Definition clearChat (confirmed : bool) : M unit :=
  if confirmed then
    modify (set_chatMessages []) ;;
    s <- get ;;
    match welcomeScreen_display s with
    | Some _ => modify (set_welcomeScreen_display (Some (lit "flex")))
    | None => throw TypeError
    end ;;
    modify (set_conversationHistory []) ;;
    showToast (VString (lit "Chat cleared")) (lit "info")
  else ret tt.

(** The user edits the text area; [autoResizeTextarea] then sets its
    height from the [scrollHeight] the layout reports. *)
Definition input (text : jsstring) (scrollHeight : N) : M unit :=
  modify (set_questionInput_value text) ;;
  modify (set_questionInput_height Auto) ;;
  modify (set_questionInput_height (Px (N.min scrollHeight 150))).

(* ================================================================== *)
(** ** The event loop *)
(* ================================================================== *)

(** The page together with the suspended calls of [handleSubmit]. *)
Record Sys := mkSys {
  page : State;
  inflight : list Pending
}.

Inductive Event :=
| Submit
| FetchSettled (i : nat) (r : Completion bool)
| JsonSettled (i : nat) (r : Completion Value) (now : Z)
| Input (text : jsstring) (scrollHeight : N)
| ClearChat (confirmed : bool).

Fixpoint remove_nth {A : Type} (i : nat) (l : list A) : list A :=
  match l, i with
  | [], _ => []
  | _ :: l', O => l'
  | x :: l', S i' => x :: remove_nth i' l'
  end.

Fixpoint replace_nth {A : Type} (i : nat) (y : A) (l : list A) : list A :=
  match l, i with
  | [], _ => []
  | _ :: l', O => y :: l'
  | x :: l', S i' => x :: replace_nth i' y l'
  end.

(** One turn of the event loop.  A settlement addresses the [i]-th
    suspended call and is ignored when that call does not wait for it.  An
    exception that leaves a handler is reported by the browser and changes
    nothing more. *)
Definition step (sys : Sys) (ev : Event) : Sys :=
  match ev with
  | Submit =>
      match handleSubmit (page sys) with
      | (s', Normal (Some p)) => {| page := s'; inflight := inflight sys ++ [p] |}
      | (s', _) => {| page := s'; inflight := inflight sys |}
      end
  | FetchSettled i r =>
      match nth_error (inflight sys) i, r with
      | Some (AwaitFetch q), Normal ok =>
          {| page := page sys;
             inflight := replace_nth i (AwaitJson q ok) (inflight sys) |}
      | Some (AwaitFetch q), Throw e =>
          {| page := exec (handleSubmit_settle q (Throw e) 0%Z) (page sys);
             inflight := remove_nth i (inflight sys) |}
      | _, _ => sys
      end
  | JsonSettled i r now =>
      match nth_error (inflight sys) i with
      | Some (AwaitJson q ok) =>
          let outcome :=
            match r with
            | Normal data => Normal (ok, data)
            | Throw e => Throw e
            end in
          {| page := exec (handleSubmit_settle q outcome now) (page sys);
             inflight := remove_nth i (inflight sys) |}
      | _ => sys
      end
  | Input text h =>
      {| page := exec (input text h) (page sys); inflight := inflight sys |}
  | ClearChat confirmed =>
      {| page := exec (clearChat confirmed) (page sys); inflight := inflight sys |}
  end.

Definition run (sys : Sys) (evs : list Event) : Sys := fold_left step evs sys.

(** A freshly loaded page: nothing is loading, the history is empty, no
    typing indicator is shown and no call is suspended. *)
Definition initial (sys : Sys) : Prop :=
  isLoading (page sys) = false /\
  conversationHistory (page sys) = [] /\
  existsb is_typingIndicator (chatMessages (page sys)) = false /\
  inflight sys = [].

Definition Reachable (sys : Sys) : Prop :=
  exists sys0 evs, initial sys0 /\ sys = run sys0 evs.

(* ================================================================== *)
(** ** The text helpers as the specification words them *)
(* ================================================================== *)

Module Spec.

(** The HTML entity of a character: the five markup characters have one,
    any other character stands for itself. *)
Definition entity (c : char) : jsstring :=
  if N.eqb c (chr "&") then lit "&amp;"
  else if N.eqb c (chr "<") then lit "&lt;"
  else if N.eqb c (chr ">") then lit "&gt;"
  else if N.eqb c dquote then lit "&quot;"
  else if N.eqb c squote then lit "&#039;"
  else [c].

(** Escaping replaces each character by its entity. *)
Definition escape (s : jsstring) : jsstring := flat_map entity s.

(** The markup characters that must not reach the page raw. *)
Definition markup (c : char) : bool :=
  N.eqb c (chr "<") || N.eqb c (chr ">") || N.eqb c dquote || N.eqb c squote.

(** [s] without the prefix [l], when it starts with it. *)
Fixpoint strip_prefix (l s : jsstring) : option jsstring :=
  match l, s with
  | [], _ => Some s
  | c :: l', d :: s' => if N.eqb c d then strip_prefix l' s' else None
  | _ :: _, [] => None
  end.

(** The longest prefix of [s] whose characters satisfy [p], and the rest. *)
Fixpoint span (p : char -> bool) (s : jsstring) : jsstring * jsstring :=
  match s with
  | [] => ([], [])
  | c :: s' =>
      if p c then let (run, rest) := span p s' in (c :: run, rest)
      else ([], s)
  end.

Definition scheme_of (s : jsstring) : option (jsstring * jsstring) :=
  match strip_prefix (lit "https://") s with
  | Some body => Some (lit "https://", body)
  | None =>
      match strip_prefix (lit "http://") s with
      | Some body => Some (lit "http://", body)
      | None => None
      end
  end.

(** A bare URL at the start of [s]: the scheme [http://] or [https://]
    and the maximal, non-empty run of non-whitespace characters after it;
    the second component is what follows the URL. *)
Definition url_at (s : jsstring) : option (jsstring * jsstring) :=
  match scheme_of s with
  | Some (scheme, body) =>
      match span nonws body with
      | ([], _) => None
      | (run, rest) => Some (scheme ++ run, rest)
      end
  | None => None
  end.

(** A text read from the left is a sequence of bare URLs and of single
    characters outside them. *)
Inductive token :=
| TUrl (u : jsstring)
| TChar (c : char).

Inductive tokens : jsstring -> list token -> Prop :=
| tokens_nil : tokens [] []
| tokens_url s u rest ts :
    url_at s = Some (u, rest) -> tokens rest ts -> tokens s (TUrl u :: ts)
| tokens_char c s ts :
    url_at (c :: s) = None -> tokens s ts -> tokens (c :: s) (TChar c :: ts).

(** The anchor of a URL written [u] in HTML: [u] is the [href] and the
    link text; the link opens in a new context without a reference to its
    opener. *)
Definition anchor (u : jsstring) : jsstring :=
  lit "<a href=" ++ dq ++ u ++ dq ++
  lit " target=" ++ dq ++ lit "_blank" ++ dq ++
  lit " rel=" ++ dq ++ lit "noopener" ++ dq ++
  lit ">" ++ u ++ lit "</a>".

(** A URL becomes one anchor, a line feed a line break, any other
    character its entity. *)
Definition render (t : token) : jsstring :=
  match t with
  | TUrl u => anchor (escape u)
  | TChar c => if N.eqb c LF then lit "<br>" else entity c
  end.

Definition is_url (t : token) : bool :=
  match t with
  | TUrl _ => true
  | TChar _ => false
  end.

End Spec.

(** The number of elements of a list that satisfy a test. *)
Definition count {A : Type} (p : A -> bool) (l : list A) : nat :=
  List.length (filter p l).

(* ================================================================== *)
(** ** Vocabulary of the statements *)
(* ================================================================== *)

(** *** Text *)

(** The two later passes of [formatText]. *)
Definition linkify (s : jsstring) : jsstring :=
  replace_g re_url (template anchor_template) s.

Definition nl2br (s : jsstring) : jsstring :=
  replace_g re_newline (fun _ => br) s.

(** The match lengths [n], [n-1], ..., [1] that a greedy class repetition
    offers on a run of [n] characters. *)
Fixpoint countdown (n : nat) : list nat :=
  match n with
  | O => []
  | S k => S k :: countdown k
  end.

(** A run of literal characters in front of a pattern. *)
Definition chars_then (l : jsstring) (r : regex) : regex :=
  fold_right (fun c r' => Cat (Chr c) r') r l.

(** A URL and what follows it, both escaped. *)
Definition escape_pair (p : jsstring * jsstring) : jsstring * jsstring :=
  (Spec.escape (fst p), Spec.escape (snd p)).

(** Reading entities back.  [entity_at s] is the character that an
    entity at the start of [s] stands for, with the length of the entity;
    [unescape_from 0] decodes a text, passing over the rest of each entity
    it has decoded. *)
Definition entity_at (s : jsstring) : option (char * nat) :=
  match
    find (fun p => match Spec.strip_prefix (snd p) s with
                   | Some _ => true
                   | None => false
                   end)
         [ (chr "&", lit "&amp;"); (chr "<", lit "&lt;"); (chr ">", lit "&gt;");
           (dquote, lit "&quot;"); (squote, lit "&#039;") ]
  with
  | Some (c, e) => Some (c, length e)
  | None => None
  end.

Fixpoint unescape_from (skip : nat) (s : jsstring) : jsstring :=
  match s with
  | [] => []
  | c :: s' =>
      match skip with
      | S k => unescape_from k s'
      | O =>
          match entity_at s with
          | Some (d, n) => d :: unescape_from (pred n) s'
          | None => c :: unescape_from 0 s'
          end
      end
  end.

(** *** Messages, toasts and requests *)

(** The message list without the typing indicator. *)
Definition without_typing (l : list Element) : list Element :=
  remove_first is_typingIndicator l.

Definition is_userMessage (e : Element) : bool :=
  JsString.eqb (className e) (lit "message message-user").

(** The two generic error texts of [handleSubmit]. *)
Definition connectivity_text : jsstring :=
  lit "Failed to connect to the server. Please make sure the backend is running.".

Definition fallback_text : jsstring :=
  lit "An error occurred while getting the answer.".

(** The toasts of each kind, with their icons. *)
Definition error_toast (content : jsstring) : Element :=
  toast (lit "error") [10005%N] content.

Definition success_toast : Element :=
  toast (lit "success") [10003%N] (lit "Message sent successfully").

Definition info_toast (content : jsstring) : Element :=
  toast (lit "info") [8505%N] content.

(** The request that carries the question [q]. *)
Definition request (q : jsstring) : Request :=
  {| url := lit "/api/ask";
     method := lit "POST";
     contentType := lit "application/json";
     payload := VObject [(lit "question", VString q)] |}.

(** *** Pages *)

(** The page when an accepted call is suspended at [fetch]. *)
Definition entered (s : State) : State :=
  let q := trim (questionInput_value s) in
  {| questionInput_value := [];
     questionInput_height := Auto;
     submitBtn_disabled := true;
     spinner_hidden := false;
     btnIcon_hidden := true;
     btnText_textContent := lit "Sending...";
     chatMessages :=
       chatMessages s ++ [userMessage (escapeHtml_string q); typingIndicator];
     welcomeScreen_display :=
       option_map (fun _ => lit "none") (welcomeScreen_display s);
     toastContainer := toastContainer s;
     conversationHistory := conversationHistory s;
     isLoading := true;
     console_errors := console_errors s;
     network := network s ++ [request q] |}.

(** The page once a call has settled: the controls are back, the message
    list, the toasts, the history and the console are as given. *)
Definition settled (s : State) (msgs toasts : list Element)
           (history : list Turn) (errors : list Exn) : State :=
  {| questionInput_value := questionInput_value s;
     questionInput_height := questionInput_height s;
     submitBtn_disabled := false;
     spinner_hidden := true;
     btnIcon_hidden := false;
     btnText_textContent := lit "Send";
     chatMessages := msgs;
     welcomeScreen_display := welcomeScreen_display s;
     toastContainer := toasts;
     conversationHistory := history;
     isLoading := false;
     console_errors := errors;
     network := network s |}.

(** The page after the first statement of the [try] block. *)
Definition after_remove (s : State) : State :=
  set_chatMessages (without_typing (chatMessages s)) s.

(** The page after the [catch] block, entered on page [s], and [finally];
    [s0] is the page on which the settlement began. *)
Definition caught (e : Exn) (s0 s : State) : State :=
  settled s0
    (without_typing (chatMessages s) ++ [errorMessage connectivity_text])
    (toastContainer s ++ [error_toast (lit "Connection error")])
    (conversationHistory s)
    (console_errors s ++ [e]).

(** *** The event loop *)

(** At most one call is suspended; the loading flag is up exactly while
    it is, and only then can a typing indicator be shown, and only one. *)
Definition Inv (sys : Sys) : Prop :=
  match inflight sys with
  | [] =>
      isLoading (page sys) = false /\
      existsb is_typingIndicator (chatMessages (page sys)) = false
  | [_] =>
      isLoading (page sys) = true /\
      count is_typingIndicator (chatMessages (page sys)) <= 1
  | _ => False
  end.

(** The settlements that end a suspended call: a rejected [fetch], and
    any settlement of [response.json()]. *)
Definition settles (sys : Sys) (ev : Event) : bool :=
  match ev with
  | FetchSettled i (Throw _) =>
      match nth_error (inflight sys) i with
      | Some (AwaitFetch _) => true
      | _ => false
      end
  | JsonSettled i _ _ =>
      match nth_error (inflight sys) i with
      | Some (AwaitJson _ _) => true
      | _ => false
      end
  | _ => false
  end.

(** What a failed submission shows: one error message in place of the
    typing indicator, one error toast, the history as it was. *)
Definition failed_with (text toast_text : jsstring) (sys sys' : Sys) : Prop :=
  chatMessages (page sys') =
    remove_first is_typingIndicator (chatMessages (page sys)) ++
    [errorMessage text] /\
  toastContainer (page sys') =
    toastContainer (page sys) ++ [toast (lit "error") [10005%N] toast_text] /\
  conversationHistory (page sys') = conversationHistory (page sys).

(** *** What an element shows *)

(** [text] occurs in [s]. *)
Definition includes (text s : jsstring) : Prop :=
  exists pre post, s = pre ++ text ++ post.

(** The two blocks of a message as they stand in the markup of the page:
    the label and the content. *)
Definition label_block (label : jsstring) : jsstring :=
  lit "<div class=" ++ [dquote] ++ lit "message-label" ++ [dquote] ++
  lit ">" ++ label ++ lit "</div>".

Definition content_block (text : jsstring) : jsstring :=
  lit "<div class=" ++ [dquote] ++ lit "message-content" ++ [dquote] ++
  lit ">" ++ text ++ lit "</div>".

(** The element is a message of the given kind ([user], [ai], [error]):
    it has the classes of the kind and no id, and its markup holds the
    label and, in its content block, the text. *)
Definition shows_message (kind label text : jsstring) (e : Element) : Prop :=
  className e = lit "message message-" ++ kind /\
  id e = [] /\
  includes (label_block label) (innerHTML e) /\
  includes (content_block text) (innerHTML e).

(** The element is a toast of the given type with the text in a span of
    its own. *)
Definition shows_toast (type text : jsstring) (e : Element) : Prop :=
  className e = lit "toast " ++ type /\
  includes (lit "<span>" ++ text ++ lit "</span>") (innerHTML e).

(** What a failed submission puts on the page, said of the elements
    themselves: one element takes the place of the typing indicator, an
    error message with the text; one toast is added, an error toast with
    its text. *)
Definition error_rendered (text toast_text : jsstring) (sys sys' : Sys) : Prop :=
  exists e t,
    chatMessages (page sys') =
      remove_first is_typingIndicator (chatMessages (page sys)) ++ [e] /\
    shows_message (lit "error") (lit "Error") text e /\
    toastContainer (page sys') = toastContainer (page sys) ++ [t] /\
    shows_toast (lit "error") toast_text t.

(** *** Sample runs *)

(** A freshly loaded page with a question typed in. *)
Definition page0 : State :=
  {| questionInput_value := lit "  hello ";
     questionInput_height := Auto;
     submitBtn_disabled := false;
     spinner_hidden := true;
     btnIcon_hidden := false;
     btnText_textContent := lit "Send";
     chatMessages := [];
     welcomeScreen_display := Some (lit "flex");
     toastContainer := [];
     conversationHistory := [];
     isLoading := false;
     console_errors := [];
     network := [] |}.

Definition sys0 : Sys := {| page := page0; inflight := [] |}.

(** The sample page with its question sent, waiting for the response, and
    waiting for the body of a response with the given status flag. *)
Definition sys_fetching : Sys := run sys0 [Submit].

Definition sys_parsing (ok : bool) : Sys :=
  run sys0 [Submit; FetchSettled 0 (Normal ok)].

(** The sample page after one answered question. *)
Definition page_after_turn : State :=
  page (run sys0 [Submit; FetchSettled 0 (Normal true);
                  JsonSettled 0 (Normal (VObject [(lit "answer", VString (lit "hi"))]))
                              1700000000000%Z]).

(** The body of a refusal. *)
Definition bad_question : Value :=
  VObject [(lit "error", VString (lit "bad question"))].

(* ================================================================== *)
(** ** Further handlers and vocabulary *)
(* ================================================================== *)

(** A token that renders as a line break. *)
Definition is_break (t : Spec.token) : bool :=
  match t with
  | Spec.TChar c => N.eqb c LF
  | Spec.TUrl _ => false
  end.

(** The controls show the loading flag. *)
Definition controls_mirror (s : State) : Prop :=
  submitBtn_disabled s = isLoading s /\
  spinner_hidden s = negb (isLoading s) /\
  btnIcon_hidden s = isLoading s /\
  btnText_textContent s = (if isLoading s then lit "Sending..." else lit "Send").

(** Every answer kept in the history is a string. *)
Definition string_answers (h : list Turn) : Prop :=
  Forall (fun t => exists a, answer t = VString a) h.

(** A request of the form the script sends, for a question that is not
    empty and has no whitespace at either end. *)
Definition sound_request (r : Request) : Prop :=
  exists q, r = request q /\ q <> [] /\ trim q = q.

(** A height that [autoResizeTextarea] can have set. *)
Definition height_capped (h : CssHeight) : Prop :=
  match h with
  | Auto => True
  | Px n => (n <= 150)%N
  end.

(* ================================================================== *)
(** ** Navigation, the keyboard and the start of the page *)
(* ================================================================== *)

Module Ui.

(** An element of class [nav-item]: its [data-view] attribute, [None] when
    it has none, and whether its class list holds [active]. *)
Record NavItem := mkNavItem {
  data_view : option jsstring;
  active : bool
}.

(** The page of the chat together with what the navigation handlers
    write: the navigation items in document order, the [display] of the
    element of class [chat-container] ([None] when the page has none), and
    the lines that [console.log] has printed, each by its arguments. *)
Record View := mkView {
  chat : State;
  navItems : list NavItem;
  chatContainer_display : option jsstring;
  console_log : list (list jsstring)
}.

Definition set_chat (s : State) (v : View) : View :=
  {| chat := s; navItems := navItems v;
     chatContainer_display := chatContainer_display v;
     console_log := console_log v |}.

Definition set_navItems (l : list NavItem) (v : View) : View :=
  {| chat := chat v; navItems := l;
     chatContainer_display := chatContainer_display v;
     console_log := console_log v |}.

Definition set_chatContainer_display (d : option jsstring) (v : View) : View :=
  {| chat := chat v; navItems := navItems v;
     chatContainer_display := d;
     console_log := console_log v |}.

Definition set_console_log (l : list (list jsstring)) (v : View) : View :=
  {| chat := chat v; navItems := navItems v;
     chatContainer_display := chatContainer_display v;
     console_log := l |}.

(** Statements on the view. *)
Definition MV (A : Type) : Type := View -> View * Completion A.

Definition retV {A : Type} (a : A) : MV A := fun v => (v, Normal a).

Definition bindV {A B : Type} (c : MV A) (k : A -> MV B) : MV B :=
  fun v =>
    match c v with
    | (v', Normal a) => k a v'
    | (v', Throw e) => (v', Throw e)
    end.

Definition throwV {A : Type} (e : Exn) : MV A := fun v => (v, Throw e).

Definition getV : MV View := fun v => (v, Normal v).

Definition modifyV (f : View -> View) : MV unit := fun v => (f v, Normal tt).

(** A statement of the chat page, run on the view. *)
Definition liftV {A : Type} (c : M A) : MV A :=
  fun v => let (s, r) := c (chat v) in (set_chat s v, r).

Declare Scope view_scope.
Delimit Scope view_scope with view.
Notation "x <- c1 ;; c2" := (bindV c1 (fun x => c2))
  (at level 61, c1 at next level, right associativity) : view_scope.
Notation "c1 ;; c2" := (bindV c1 (fun _ => c2))
  (at level 61, right associativity) : view_scope.
Open Scope view_scope.

Definition console_log_line (args : list jsstring) : MV unit :=
  modifyV (fun v => set_console_log (console_log v ++ [args]) v).

(** The decimal digits of a natural number, as a number prints in a
    template literal. *)
Fixpoint digits (d : Decimal.uint) : jsstring :=
  match d with
  | Decimal.Nil => []
  | Decimal.D0 d' => chr "0" :: digits d'
  | Decimal.D1 d' => chr "1" :: digits d'
  | Decimal.D2 d' => chr "2" :: digits d'
  | Decimal.D3 d' => chr "3" :: digits d'
  | Decimal.D4 d' => chr "4" :: digits d'
  | Decimal.D5 d' => chr "5" :: digits d'
  | Decimal.D6 d' => chr "6" :: digits d'
  | Decimal.D7 d' => chr "7" :: digits d'
  | Decimal.D8 d' => chr "8" :: digits d'
  | Decimal.D9 d' => chr "9" :: digits d'
  end.

Definition decimal (n : nat) : jsstring := digits (Nat.to_uint n).

(** [l.join(sep)] *)
Fixpoint join (sep : jsstring) (l : list jsstring) : jsstring :=
  match l with
  | [] => []
  | [x] => x
  | x :: l' => x ++ sep ++ join sep l'
  end.

(** [l.map((item, idx) => f(item, idx))], counting from [idx]. *)
Fixpoint mapi {A B : Type} (f : A -> nat -> B) (idx : nat) (l : list A) : list B :=
  match l with
  | [] => []
  | x :: l' => f x idx :: mapi f (S idx) l'
  end.

(** The text of one turn in [showHistory].  [toString] is the conversion
    that a template literal applies to the answer. *)
Definition history_entry (toString : Value -> jsstring) (item : Turn) (idx : nat)
  : jsstring :=
  nl ++ lit "    Q" ++ decimal (idx + 1) ++ lit ": " ++ question item ++
  nl ++ lit "    A" ++ decimal (idx + 1) ++ lit ": " ++ toString (answer item) ++
  nl ++ lit "    ---" ++
  nl ++ lit "  ".

Definition showChat : MV unit :=
  v <- getV ;;
  match chatContainer_display v with
  | Some _ => modifyV (set_chatContainer_display (Some (lit "flex")))
  | None => throwV TypeError
  end ;;
  liftV (showToast (VString (lit "Chat view opened")) (lit "info")).

Definition showHistory (toString : Value -> jsstring) : MV unit :=
  v <- getV ;;
  let conversationHistory := conversationHistory (chat v) in
  if Nat.eqb (length conversationHistory) 0 then
    liftV (showToast (VString (lit "No chat history")) (lit "info"))
  else
    let historyText :=
      join nl (mapi (history_entry toString) 0 conversationHistory) in
    console_log_line [lit "Chat History:"; historyText] ;;
    liftV (showToast
             (VString (decimal (length conversationHistory) ++
                       lit " messages in history"))
             (lit "info")).

Definition showSettings : MV unit :=
  liftV (showToast (VString (lit "Settings (not implemented yet)")) (lit "info")).

(** Marking the [i]-th item as the only active one. *)
Fixpoint activate (i : nat) (l : list NavItem) : list NavItem :=
  match l with
  | [] => []
  | x :: l' =>
      match i with
      | O => {| data_view := data_view x; active := true |} :: l'
      | S i' => x :: activate i' l'
      end
  end.

Definition deactivate (x : NavItem) : NavItem :=
  {| data_view := data_view x; active := false |}.

(** [handleNavigation(e)] for a click on the [i]-th navigation item,
    which is [e.currentTarget]; there is no such event for an item that
    does not exist. *)
Definition handleNavigation (toString : Value -> jsstring) (i : nat) : MV unit :=
  v <- getV ;;
  match nth_error (navItems v) i with
  | None => retV tt
  | Some currentTarget =>
      let view := data_view currentTarget in
      modifyV (fun v => set_navItems (map deactivate (navItems v)) v) ;;
      modifyV (fun v => set_navItems (activate i (navItems v)) v) ;;
      match view with
      | Some name =>
          if JsString.eqb name (lit "chat") then showChat
          else if JsString.eqb name (lit "history") then showHistory toString
          else if JsString.eqb name (lit "settings") then showSettings
          else retV tt
      | None => retV tt
      end
  end.

Definition initializeApp : MV unit :=
  console_log_line [lit "AI Q&A Assistant initialized"] ;;
  liftV (showToast (VString (lit "Welcome to AI Q&A Assistant")) (lit "success")).

(** The [keydown] listener of the text area: [Enter] without [Shift]
    dispatches [submit], which runs [handleSubmit] at once. *)
Definition keydown (key : jsstring) (shiftKey : bool) : option Event :=
  if JsString.eqb key (lit "Enter") && negb shiftKey then Some Submit else None.

(** The event loop with these handlers besides those of the chat. *)
Record UiSys := mkUiSys {
  view : View;
  calls : list Pending
}.

Inductive UiEvent :=
| Chat (ev : Event)
| Keydown (key : jsstring) (shiftKey : bool)
| Navigate (i : nat)
| Loaded.

Definition chat_sys (u : UiSys) : Sys :=
  {| page := chat (view u); inflight := calls u |}.

Definition step_chat (u : UiSys) (ev : Event) : UiSys :=
  let sys' := step (chat_sys u) ev in
  {| view := set_chat (page sys') (view u); calls := inflight sys' |}.

Definition step_ui (toString : Value -> jsstring) (u : UiSys) (ev : UiEvent) : UiSys :=
  match ev with
  | Chat ev' => step_chat u ev'
  | Keydown key shiftKey =>
      match keydown key shiftKey with
      | Some ev' => step_chat u ev'
      | None => u
      end
  | Navigate i =>
      {| view := fst (handleNavigation toString i (view u)); calls := calls u |}
  | Loaded =>
      {| view := fst (initializeApp (view u)); calls := calls u |}
  end.

Definition run_ui (toString : Value -> jsstring) (u : UiSys) (evs : list UiEvent)
  : UiSys :=
  fold_left (step_ui toString) evs u.

End Ui.

(** The chat page with some toasts more. *)
Definition with_toasts (ts : list Element) (s : State) : State :=
  set_toastContainer (toastContainer s ++ ts) s.

(** What a view handler may do: add a toast at most to the chat page,
    print to the console, show the chat container; it leaves the navigation
    items alone. *)
Definition view_frame (v v' : Ui.View) : Prop :=
  Ui.navItems v' = Ui.navItems v /\
  exists ts, length ts <= 1 /\ Ui.chat v' = with_toasts ts (Ui.chat v).

(** A sample view: three navigation items, the first one active, and no
    chat container. *)
Definition view0 : Ui.View :=
  {| Ui.chat := page_after_turn;
     Ui.navItems :=
       [ {| Ui.data_view := Some (lit "chat"); Ui.active := true |};
         {| Ui.data_view := Some (lit "history"); Ui.active := false |};
         {| Ui.data_view := Some (lit "settings"); Ui.active := false |} ];
     Ui.chatContainer_display := None;
     Ui.console_log := [] |}.

Definition ui0 : Ui.UiSys :=
  {| Ui.view :=
       {| Ui.chat := page0; Ui.navItems := Ui.navItems view0;
          Ui.chatContainer_display := Some (lit "flex"); Ui.console_log := [] |};
     Ui.calls := [] |}.

(* ================================================================== *)
(** ** [showToast] with its timers *)
(* ================================================================== *)

Module Toasts.

(** A toast on the screen.  [uid] stands for the identity of the element,
    which the two timer callbacks of [showToast] hold on to; [node] is the
    element as [showToast] builds it; [animation] is [style.animation],
    empty until the first callback sets it. *)
Record ToastNode := mkToastNode {
  uid : nat;
  node : Element;
  animation : jsstring
}.

(** The two callbacks handed to [setTimeout], each closed over its toast:
    the outer one starts the slide-out animation and sets the inner one,
    which removes the toast. *)
Inductive Task :=
| SlideOut (u : nat)
| Remove (u : nat).

(** A pending timer: the time in milliseconds from which it may fire. *)
Record Timer := mkTimer {
  due : N;
  task : Task
}.

Record Screen := mkScreen {
  toasts : list ToastNode;
  timers : list Timer;
  next_uid : nat;
  clock : N
}.

Definition slideOut : jsstring := lit "slideOutRight 0.3s ease-out forwards".

(** [showToast(message, type)]: the toast is appended to the container and
    the outer callback is set for 3000 ms later. *)
Definition showToast (message : Value) (type : jsstring) (scr : Screen)
  : Screen * Completion unit :=
  let icon := toast_icon type in
  match escapeHtml message with
  | Normal content =>
      ({| toasts :=
            toasts scr ++
            [ {| uid := next_uid scr;
                 node := toast type icon content;
                 animation := [] |} ];
          timers :=
            timers scr ++
            [ {| due := clock scr + 3000; task := SlideOut (next_uid scr) |} ];
          next_uid := S (next_uid scr);
          clock := clock scr |},
       Normal tt)
  | Throw e => (scr, Throw e)
  end.

Definition start_animation (u : nat) (n : ToastNode) : ToastNode :=
  if Nat.eqb (uid n) u
  then {| uid := uid n; node := node n; animation := slideOut |}
  else n.

(** Running a callback. *)
Definition run_task (t : Task) (scr : Screen) : Screen :=
  match t with
  | SlideOut u =>
      {| toasts := map (start_animation u) (toasts scr);
         timers := timers scr ++ [ {| due := clock scr + 300; task := Remove u |} ];
         next_uid := next_uid scr;
         clock := clock scr |}
  | Remove u =>
      {| toasts := filter (fun n => negb (Nat.eqb (uid n) u)) (toasts scr);
         timers := timers scr;
         next_uid := next_uid scr;
         clock := clock scr |}
  end.

(** The [k]-th pending timer fires, if there is one and its time has
    come: it leaves the list of timers and its callback runs. *)
Definition fire (k : nat) (scr : Screen) : Screen :=
  match nth_error (timers scr) k with
  | Some tm =>
      if N.leb (due tm) (clock scr) then
        run_task (task tm)
          {| toasts := toasts scr;
             timers := remove_nth k (timers scr);
             next_uid := next_uid scr;
             clock := clock scr |}
      else scr
  | None => scr
  end.

(** Time passes. *)
Definition tick (d : N) (scr : Screen) : Screen :=
  {| toasts := toasts scr; timers := timers scr; next_uid := next_uid scr;
     clock := clock scr + d |}.

Inductive ScreenEvent :=
| Show (message : Value) (type : jsstring)
| Fire (k : nat)
| Tick (d : N).

Definition step_screen (scr : Screen) (ev : ScreenEvent) : Screen :=
  match ev with
  | Show message type => fst (showToast message type scr)
  | Fire k => fire k scr
  | Tick d => tick d scr
  end.

Definition run_screen (scr : Screen) (evs : list ScreenEvent) : Screen :=
  fold_left step_screen evs scr.

(** The callback that a toast on the screen still waits for. *)
Definition pending (n : ToastNode) : Task :=
  match animation n with
  | [] => SlideOut (uid n)
  | _ => Remove (uid n)
  end.

Definition task_uid (t : Task) : nat :=
  match t with
  | SlideOut u => u
  | Remove u => u
  end.

(** The toasts are distinct elements, older than the next one to come,
    and each has the timer of its next callback pending. *)
Definition Tidy (scr : Screen) : Prop :=
  NoDup (map uid (toasts scr)) /\
  Forall (fun n => uid n < next_uid scr) (toasts scr) /\
  forall n, In n (toasts scr) ->
            exists tm, In tm (timers scr) /\ task tm = pending n.

Definition empty (now : N) : Screen :=
  {| toasts := []; timers := []; next_uid := 0; clock := now |}.

End Toasts.

Definition two_toasts : Toasts.Screen :=
  Toasts.run_screen (Toasts.empty 0)
    [Toasts.Show (VString (lit "a")) (lit "info");
     Toasts.Show (VString (lit "b")) (lit "error"); Toasts.Tick 3000].

(* ================================================================== *)
(** * Theorems *)
(* ================================================================== *)

(** ** The matcher and the global replace *)

Lemma firstn_length_app {A : Type} (x y : list A) :
  firstn (length x) (x ++ y) = x.
Proof. induction x; simpl; congruence. Qed.

Section ReplaceFacts.

Variable r : regex.
Variable f : jsstring -> jsstring.

(** Passing over a match resumes the scan right after it. *)
Lemma replace_from_skip (x rest : jsstring) :
  replace_from r f (length x) (x ++ rest) = replace_from r f 0 rest.
Proof.
  induction x as [|c x IH]; simpl.
  - destruct rest; reflexivity.
  - exact IH.
Qed.

Lemma replace_g_nil_nomatch :
  exec_at r [] = None -> replace_g r f [] = [].
Proof. unfold replace_g; simpl; intros ->; reflexivity. Qed.

Lemma replace_g_nomatch (c : char) (s : jsstring) :
  exec_at r (c :: s) = None ->
  replace_g r f (c :: s) = c :: replace_g r f s.
Proof. unfold replace_g; cbn [replace_from]; intros ->; reflexivity. Qed.

Lemma replace_g_match (u rest : jsstring) :
  u <> [] ->
  exec_at r (u ++ rest) = Some (length u) ->
  replace_g r f (u ++ rest) = f u ++ replace_g r f rest.
Proof.
  unfold replace_g.
  destruct u as [|c u]; [congruence|]; intros _ H.
  assert (E : firstn (length (c :: u)) ((c :: u) ++ rest) = c :: u)
    by apply firstn_length_app.
  change ((c :: u) ++ rest) with (c :: (u ++ rest)) in *.
  cbn [replace_from]. rewrite H. cbn [length] in *.
  rewrite E, replace_from_skip. reflexivity.
Qed.

End ReplaceFacts.

(** A pattern of one character class replaces character by character. *)
Lemma replace_g_Class (p : char -> bool) (f : jsstring -> jsstring) (s : jsstring) :
  replace_g (Class p) f s = flat_map (fun c => if p c then f [c] else [c]) s.
Proof.
  induction s as [|c s IH]; [reflexivity|].
  unfold replace_g in *. cbn [replace_from flat_map].
  unfold exec_at; cbn [matches].
  destruct (p c); cbn [hd_error firstn]; rewrite IH; reflexivity.
Qed.

Lemma replace_g_Chr (c : char) (f : jsstring -> jsstring) (s : jsstring) :
  replace_g (Chr c) f s = flat_map (fun d => if N.eqb c d then f [d] else [d]) s.
Proof.
  induction s as [|d s IH]; [reflexivity|].
  unfold replace_g in *. cbn [replace_from flat_map].
  unfold exec_at; cbn [matches].
  destruct (N.eqb c d); cbn [hd_error firstn]; rewrite IH; reflexivity.
Qed.

(** ** [escapeHtml] *)

Lemma special_cases (c : char) :
  special c = true ->
  c = chr "&" \/ c = chr "<" \/ c = chr ">" \/ c = dquote \/ c = squote.
Proof.
  unfold special; cbn [existsb].
  rewrite !orb_true_iff, !N.eqb_eq. intuition congruence.
Qed.

Lemma escape_match_entity (c : char) :
  (if special c then escape_match [c] else [c]) = Spec.entity c.
Proof.
  destruct (special c) eqn:E.
  - apply special_cases in E.
    destruct E as [-> | [-> | [-> | [-> | ->]]]]; reflexivity.
  - unfold special in E; cbn [existsb] in E.
    rewrite !orb_false_iff in E.
    destruct E as (E1 & E2 & E3 & E4 & E5 & _).
    unfold Spec.entity. rewrite E1, E2, E3, E4, E5. reflexivity.
Qed.

Lemma escapeHtml_string_escape (s : jsstring) :
  escapeHtml_string s = Spec.escape s.
Proof.
  unfold escapeHtml_string, re_special, Spec.escape.
  rewrite replace_g_Class.
  induction s as [|c s IH]; [reflexivity|].
  cbn [flat_map]. rewrite escape_match_entity, IH. reflexivity.
Qed.

Lemma entity_no_markup (c : char) :
  forallb (fun d => negb (Spec.markup d)) (Spec.entity c) = true.
Proof.
  unfold Spec.entity.
  destruct (N.eqb c (chr "&")) eqn:E1; [reflexivity|].
  destruct (N.eqb c (chr "<")) eqn:E2; [reflexivity|].
  destruct (N.eqb c (chr ">")) eqn:E3; [reflexivity|].
  destruct (N.eqb c dquote) eqn:E4; [reflexivity|].
  destruct (N.eqb c squote) eqn:E5; [reflexivity|].
  cbn [forallb]. unfold Spec.markup. rewrite E2, E3, E4, E5. reflexivity.
Qed.

Lemma escape_no_markup (s : jsstring) :
  forallb (fun d => negb (Spec.markup d)) (Spec.escape s) = true.
Proof.
  induction s as [|c s IH]; [reflexivity|].
  unfold Spec.escape in *; cbn [flat_map].
  rewrite forallb_app, entity_no_markup, IH. reflexivity.
Qed.

(** ** The URL pattern *)

Lemma matches_Cat_Chr (c : char) (r : regex) (s : jsstring) :
  matches (Cat (Chr c) r) s =
  match s with
  | d :: s' => if N.eqb c d then map S (matches r s') else []
  | [] => []
  end.
Proof.
  cbn [matches]. destruct s as [|d s]; [reflexivity|].
  destruct (N.eqb c d); [|reflexivity].
  cbn [flat_map skipn]. apply app_nil_r.
Qed.

Lemma matches_Cat_Opt_Chr (c : char) (r : regex) (s : jsstring) :
  matches (Cat (Opt (Chr c)) r) s =
  match s with
  | d :: s' => if N.eqb c d then map S (matches r s') else []
  | [] => []
  end ++ matches r s.
Proof.
  rewrite <- matches_Cat_Chr. cbn [matches].
  rewrite flat_map_app. cbn [flat_map skipn].
  rewrite app_nil_r. f_equal. apply map_id.
Qed.

Lemma matches_Cat_Eps (r : regex) (s : jsstring) :
  matches (Cat r Eps) s = matches r s.
Proof.
  cbn [matches]. induction (matches r s) as [|n l IH]; [reflexivity|].
  simpl in *. rewrite IH, Nat.add_0_r. reflexivity.
Qed.

Lemma map_S_countdown (k : nat) :
  map S (countdown k ++ [0]) = S k :: countdown k.
Proof.
  induction k as [|k IH]; [reflexivity|].
  cbn [countdown app map]. rewrite IH. reflexivity.
Qed.

Lemma iterate_Class (p : char -> bool) (fuel : nat) :
  forall s, length s <= fuel ->
  iterate (matches (Class p)) fuel s = countdown (length (fst (Spec.span p s))).
Proof.
  induction fuel as [|fuel IH]; intros s Hs.
  - destruct s; [reflexivity | simpl in Hs; lia].
  - destruct s as [|c s]; [reflexivity|].
    cbn [iterate matches Spec.span]. destruct (p c).
    + cbn [flat_map skipn]. rewrite app_nil_r, IH by (simpl in Hs; lia).
      destruct (Spec.span p s) as [run rest]. cbn [fst length].
      apply map_S_countdown.
    + reflexivity.
Qed.

Lemma matches_Plus_Class (p : char -> bool) (s : jsstring) :
  matches (Plus (Class p)) s = countdown (length (fst (Spec.span p s))).
Proof. cbn [matches]. apply iterate_Class. lia. Qed.

Lemma span_app (p : char -> bool) (s : jsstring) :
  fst (Spec.span p s) ++ snd (Spec.span p s) = s.
Proof.
  induction s as [|c s IH]; [reflexivity|].
  cbn [Spec.span]. destruct (p c); [|reflexivity].
  destruct (Spec.span p s) as [run rest]. cbn [fst snd app] in *. congruence.
Qed.

Lemma strip_prefix_app (a b s : jsstring) :
  Spec.strip_prefix (a ++ b) s =
  match Spec.strip_prefix a s with
  | Some s' => Spec.strip_prefix b s'
  | None => None
  end.
Proof.
  revert s; induction a as [|c a IH]; intros s; [reflexivity|].
  destruct s as [|d s]; [reflexivity|].
  cbn [app Spec.strip_prefix]. destruct (N.eqb c d); [apply IH | reflexivity].
Qed.

Lemma strip_prefix_sound (l s s' : jsstring) :
  Spec.strip_prefix l s = Some s' -> s = l ++ s'.
Proof.
  revert s; induction l as [|c l IH]; intros s H.
  - cbn in H. injection H as ->. reflexivity.
  - destruct s as [|d s]; [discriminate|]. cbn in H.
    destruct (N.eqb c d) eqn:E; [|discriminate].
    apply N.eqb_eq in E; subst d. cbn. f_equal. auto.
Qed.

Lemma matches_chars_then (l : jsstring) (r : regex) (s : jsstring) :
  matches (chars_then l r) s =
  match Spec.strip_prefix l s with
  | Some s' => map (Nat.add (length l)) (matches r s')
  | None => []
  end.
Proof.
  revert s; induction l as [|c l IH]; intros s.
  - cbn. symmetry. apply map_id.
  - cbn [chars_then fold_right]. rewrite matches_Cat_Chr.
    destruct s as [|d s]; [reflexivity|]. cbn [Spec.strip_prefix].
    destruct (N.eqb c d); [|reflexivity].
    fold (chars_then l r). rewrite IH.
    destruct (Spec.strip_prefix l s); [|reflexivity].
    rewrite map_map. reflexivity.
Qed.

Lemma hd_error_map {A B : Type} (f : A -> B) (l : list A) :
  hd_error (map f l) = option_map f (hd_error l).
Proof. destruct l; reflexivity. Qed.

Lemma hd_error_countdown (n : nat) :
  hd_error (countdown n) = match n with O => None | S _ => Some n end.
Proof. destruct n; reflexivity. Qed.

(** What follows the scheme: the run of non-whitespace characters. *)
Lemma url_tail (k : nat) (scheme body : jsstring) :
  length scheme = k ->
  hd_error (map (Nat.add k) (matches (Cat (Plus (Class nonws)) Eps) body)) =
  option_map (fun p : jsstring * jsstring => length (fst p))
    match Spec.span nonws body with
    | ([], _) => None
    | (run, rest) => Some (scheme ++ run, rest)
    end.
Proof.
  intros <-. rewrite matches_Cat_Eps, matches_Plus_Class, hd_error_map.
  rewrite hd_error_countdown.
  destruct (Spec.span nonws body) as [[|c run] rest]; [reflexivity|].
  cbn [fst option_map]. rewrite length_app. reflexivity.
Qed.

(** The engine finds at the start of a string exactly the bare URL that
    the specification describes. *)
Lemma exec_at_re_url (s : jsstring) :
  exec_at re_url s = option_map (fun p => length (fst p)) (Spec.url_at s).
Proof.
  unfold exec_at, Spec.url_at, Spec.scheme_of.
  change re_url with
    (chars_then (lit "http")
       (Cat (Opt (Chr (chr "s")))
            (chars_then (lit "://") (Cat (Plus (Class nonws)) Eps)))).
  change (lit "https://") with (lit "http" ++ lit "s://").
  change (lit "http://") with (lit "http" ++ lit "://").
  rewrite matches_chars_then, !strip_prefix_app.
  destruct (Spec.strip_prefix (lit "http") s) as [s1|]; [|reflexivity].
  rewrite matches_Cat_Opt_Chr.
  destruct s1 as [|d s2]; [reflexivity|].
  change (Spec.strip_prefix (lit "s://") (d :: s2)) with
    (if N.eqb (chr "s") d then Spec.strip_prefix (lit "://") s2 else None).
  destruct (N.eqb (chr "s") d) eqn:E.
  - apply N.eqb_eq in E; subst d.
    rewrite !matches_chars_then.
    change (Spec.strip_prefix (lit "://") (chr "s" :: s2)) with (@None jsstring).
    rewrite app_nil_r.
    destruct (Spec.strip_prefix (lit "://") s2) as [body|]; [|reflexivity].
    rewrite !map_map.
    exact (url_tail 8 (lit "https://") body eq_refl).
  - cbn [app]. rewrite matches_chars_then.
    destruct (Spec.strip_prefix (lit "://") (d :: s2)) as [body|]; [|reflexivity].
    rewrite !map_map.
    exact (url_tail 7 (lit "http://") body eq_refl).
Qed.

(** A URL found is a non-empty prefix of the text, and the rest follows it. *)
Lemma url_at_sound (s u rest : jsstring) :
  Spec.url_at s = Some (u, rest) -> s = u ++ rest /\ u <> [].
Proof.
  unfold Spec.url_at, Spec.scheme_of. intros H.
  assert (G : forall scheme body,
             s = scheme ++ body -> scheme <> [] ->
             match Spec.span nonws body with
             | ([], _) => None
             | (run, rest) => Some (scheme ++ run, rest)
             end = Some (u, rest) -> s = u ++ rest /\ u <> []).
  { intros scheme body -> Hne H'.
    pose proof (span_app nonws body) as Hs.
    destruct (Spec.span nonws body) as [[|c run] rest']; [discriminate|].
    injection H' as <- <-. cbn [fst snd] in Hs.
    rewrite <- Hs, app_assoc. split; [reflexivity|].
    destruct scheme; [congruence | discriminate]. }
  destruct (Spec.strip_prefix (lit "https://") s) as [body|] eqn:E1.
  - apply strip_prefix_sound in E1. eapply G; eauto. discriminate.
  - destruct (Spec.strip_prefix (lit "http://") s) as [body|] eqn:E2;
      [|discriminate].
    apply strip_prefix_sound in E2. eapply G; eauto. discriminate.
Qed.

(** ** Escaping and the URL pattern commute *)

Lemma entity_plain (c : char) : special c = false -> Spec.entity c = [c].
Proof. intros E. rewrite <- escape_match_entity, E. reflexivity. Qed.

Lemma entity_special (c : char) :
  special c = true -> exists t, Spec.entity c = chr "&" :: t.
Proof.
  intros E. apply special_cases in E.
  destruct E as [-> | [-> | [-> | [-> | ->]]]]; eexists; reflexivity.
Qed.

Lemma special_nonws (c : char) : special c = true -> nonws c = true.
Proof.
  intros E. apply special_cases in E.
  destruct E as [-> | [-> | [-> | [-> | ->]]]]; reflexivity.
Qed.

Lemma entity_nonws (c : char) :
  nonws c = true -> forallb nonws (Spec.entity c) = true.
Proof.
  intros H. destruct (special c) eqn:E.
  - apply special_cases in E.
    destruct E as [-> | [-> | [-> | [-> | ->]]]]; reflexivity.
  - rewrite entity_plain by assumption. cbn. rewrite H. reflexivity.
Qed.

Lemma entity_ws (c : char) : nonws c = false -> Spec.entity c = [c].
Proof.
  intros H. apply entity_plain.
  destruct (special c) eqn:E; [|reflexivity].
  apply special_nonws in E. congruence.
Qed.

Lemma entity_nonempty (c : char) : Spec.entity c <> [].
Proof.
  destruct (special c) eqn:E.
  - destruct (entity_special c E) as [t ->]. discriminate.
  - rewrite entity_plain by assumption. discriminate.
Qed.

Lemma escape_app (x y : jsstring) :
  Spec.escape (x ++ y) = Spec.escape x ++ Spec.escape y.
Proof. apply flat_map_app. Qed.

Lemma escape_cons (c : char) (s : jsstring) :
  Spec.escape (c :: s) = Spec.entity c ++ Spec.escape s.
Proof. reflexivity. Qed.

Lemma escape_nonws (s : jsstring) :
  forallb nonws s = true -> forallb nonws (Spec.escape s) = true.
Proof.
  induction s as [|c s IH]; [reflexivity|].
  cbn [forallb]. rewrite andb_true_iff. intros [Hc Hs].
  rewrite escape_cons, forallb_app, entity_nonws, IH by assumption. reflexivity.
Qed.

(** A literal without markup characters is found in the escaped text
    exactly where it is in the text. *)
Lemma strip_prefix_escape (l s : jsstring) :
  forallb (fun c => negb (special c)) l = true ->
  Spec.strip_prefix l (Spec.escape s) =
  option_map Spec.escape (Spec.strip_prefix l s).
Proof.
  revert s; induction l as [|k l IH]; intros s Hl; [reflexivity|].
  cbn [forallb] in Hl. apply andb_true_iff in Hl. destruct Hl as [Hk Hl].
  apply negb_true_iff in Hk.
  destruct s as [|d s]; [reflexivity|].
  rewrite escape_cons. cbn [Spec.strip_prefix].
  destruct (special d) eqn:Ed.
  - destruct (entity_special d Ed) as [t ->]. cbn [app].
    assert (N.eqb k (chr "&") = false) as ->.
    { apply N.eqb_neq. intros ->. discriminate. }
    assert (N.eqb k d = false) as ->.
    { apply N.eqb_neq. intros ->. congruence. }
    reflexivity.
  - rewrite entity_plain by assumption. cbn [app].
    destruct (N.eqb k d); [apply IH; assumption | reflexivity].
Qed.

Lemma span_app_all (p : char -> bool) (x y : jsstring) :
  forallb p x = true ->
  Spec.span p (x ++ y) = (x ++ fst (Spec.span p y), snd (Spec.span p y)).
Proof.
  induction x as [|c x IH]; intros H.
  - cbn. destruct (Spec.span p y); reflexivity.
  - cbn [forallb] in H. apply andb_true_iff in H. destruct H as [Hc Hx].
    cbn [app Spec.span]. rewrite Hc, IH by assumption. reflexivity.
Qed.

Lemma span_escape (s : jsstring) :
  Spec.span nonws (Spec.escape s) =
  (Spec.escape (fst (Spec.span nonws s)), Spec.escape (snd (Spec.span nonws s))).
Proof.
  induction s as [|c s IH]; [reflexivity|].
  rewrite escape_cons. cbn [Spec.span]. destruct (nonws c) eqn:Hc.
  - rewrite span_app_all by (apply entity_nonws; assumption).
    rewrite IH. destruct (Spec.span nonws s) as [run rest]. reflexivity.
  - rewrite entity_ws by assumption. cbn [app Spec.span fst snd].
    rewrite Hc. cbn [fst snd]. rewrite escape_cons, entity_ws by assumption.
    reflexivity.
Qed.

(** A bare URL of the text is, escaped, the bare URL of the escaped text. *)
Lemma url_at_escape (s : jsstring) :
  Spec.url_at (Spec.escape s) = option_map escape_pair (Spec.url_at s).
Proof.
  unfold Spec.url_at, Spec.scheme_of.
  rewrite !strip_prefix_escape by reflexivity.
  assert (G : forall scheme body,
             Spec.escape scheme = scheme ->
             match Spec.span nonws (Spec.escape body) with
             | ([], _) => None
             | (run, rest) => Some (scheme ++ run, rest)
             end =
             option_map escape_pair
               match Spec.span nonws body with
               | ([], _) => None
               | (run, rest) => Some (scheme ++ run, rest)
               end).
  { intros scheme body Hs. rewrite span_escape.
    destruct (Spec.span nonws body) as [[|c run] rest]; [reflexivity|].
    cbn [fst snd]. rewrite escape_cons.
    destruct (Spec.entity c) as [|e t] eqn:Ee;
      [exfalso; exact (entity_nonempty c Ee)|].
    cbn [app option_map]. unfold escape_pair. cbn [fst snd].
    rewrite escape_app, Hs, escape_cons, Ee. reflexivity. }
  destruct (Spec.strip_prefix (lit "https://") s) as [body|].
  - cbn [option_map]. apply G. reflexivity.
  - cbn [option_map].
    destruct (Spec.strip_prefix (lit "http://") s) as [body|];
      [|reflexivity].
    cbn [option_map]. apply G. reflexivity.
Qed.

Lemma url_at_nonws (s u rest : jsstring) :
  Spec.url_at s = Some (u, rest) -> forallb nonws u = true.
Proof.
  unfold Spec.url_at, Spec.scheme_of.
  assert (S1 : forall body, forallb nonws (fst (Spec.span nonws body)) = true).
  { induction body as [|c body IH]; [reflexivity|].
    cbn [Spec.span]. destruct (nonws c) eqn:Hc; [|reflexivity].
    destruct (Spec.span nonws body). cbn [fst forallb] in *.
    rewrite Hc, IH. reflexivity. }
  assert (G : forall scheme body,
             forallb nonws scheme = true ->
             match Spec.span nonws body with
             | ([], _) => None
             | (run, rest) => Some (scheme ++ run, rest)
             end = Some (u, rest) -> forallb nonws u = true).
  { intros scheme body Hs H. specialize (S1 body).
    destruct (Spec.span nonws body) as [[|c run] rest']; [discriminate|].
    injection H as <- <-. rewrite forallb_app, Hs. exact S1. }
  destruct (Spec.strip_prefix (lit "https://") s) as [body|].
  - apply G. reflexivity.
  - destruct (Spec.strip_prefix (lit "http://") s) as [body|];
      [apply G; reflexivity | discriminate].
Qed.

(** ** [formatText] *)

Lemma template_anchor (m : jsstring) :
  template anchor_template m = Spec.anchor m.
Proof.
  unfold Spec.anchor. cbn. reflexivity.
Qed.

Lemma linkify_nil : linkify [] = [].
Proof. reflexivity. Qed.

Lemma linkify_url (s u rest : jsstring) :
  Spec.url_at s = Some (u, rest) ->
  linkify s = Spec.anchor u ++ linkify rest.
Proof.
  intros H. destruct (url_at_sound _ _ _ H) as [-> Hne].
  unfold linkify. rewrite replace_g_match, template_anchor; auto.
  rewrite exec_at_re_url, H. reflexivity.
Qed.

Lemma linkify_char (c : char) (s : jsstring) :
  Spec.url_at (c :: s) = None -> linkify (c :: s) = c :: linkify s.
Proof.
  intros H. unfold linkify. apply replace_g_nomatch.
  rewrite exec_at_re_url, H. reflexivity.
Qed.

Lemma url_at_head (c : char) (s : jsstring) :
  N.eqb (chr "h") c = false -> Spec.url_at (c :: s) = None.
Proof.
  intros H. unfold Spec.url_at, Spec.scheme_of. cbn [lit Spec.strip_prefix].
  rewrite H. reflexivity.
Qed.

(** No URL starts inside an entity. *)
Lemma linkify_entity (c : char) (s : jsstring) :
  special c = true ->
  linkify (Spec.entity c ++ s) = Spec.entity c ++ linkify s.
Proof.
  intros E. apply special_cases in E.
  destruct E as [-> | [-> | [-> | [-> | ->]]]];
    match goal with
    | |- context [Spec.entity ?k] =>
        let e := eval vm_compute in (Spec.entity k) in
        change (Spec.entity k) with e
    end;
    cbn [app]; rewrite !linkify_char by (apply url_at_head; reflexivity);
    reflexivity.
Qed.

Lemma nl2br_flat_map (s : jsstring) :
  nl2br s = flat_map (fun d => if N.eqb LF d then br else [d]) s.
Proof. apply replace_g_Chr. Qed.

Lemma nl2br_app (x y : jsstring) : nl2br (x ++ y) = nl2br x ++ nl2br y.
Proof. rewrite !nl2br_flat_map. apply flat_map_app. Qed.

Lemma nl2br_id (x : jsstring) :
  forallb (fun d => negb (N.eqb LF d)) x = true -> nl2br x = x.
Proof.
  rewrite nl2br_flat_map. induction x as [|d x IH]; [reflexivity|].
  cbn [forallb flat_map]. rewrite andb_true_iff, negb_true_iff.
  intros [-> Hx]. rewrite IH by assumption. reflexivity.
Qed.

Lemma nonws_no_LF (x : jsstring) :
  forallb nonws x = true -> forallb (fun d => negb (N.eqb LF d)) x = true.
Proof.
  induction x as [|d x IH]; [reflexivity|].
  cbn [forallb]. rewrite !andb_true_iff. intros [Hd Hx]. split; auto.
  apply negb_true_iff, N.eqb_neq. intros <-. discriminate.
Qed.

Lemma nl2br_anchor (u : jsstring) :
  forallb nonws u = true -> nl2br (Spec.anchor u) = Spec.anchor u.
Proof.
  intros H. apply nonws_no_LF in H. apply nl2br_id.
  unfold Spec.anchor. rewrite !forallb_app, H. reflexivity.
Qed.

Lemma nl2br_entity (c : char) :
  nl2br (Spec.entity c) = if N.eqb c LF then br else Spec.entity c.
Proof.
  destruct (N.eqb c LF) eqn:E.
  - apply N.eqb_eq in E; subst c. reflexivity.
  - apply nl2br_id. destruct (special c) eqn:Es.
    + apply special_cases in Es.
      destruct Es as [-> | [-> | [-> | [-> | ->]]]]; reflexivity.
    + rewrite entity_plain by assumption. cbn [forallb].
      rewrite N.eqb_sym, E. reflexivity.
Qed.

Lemma formatText_VString (text : jsstring) :
  formatText (VString text) = Normal (formatText_string text).
Proof. reflexivity. Qed.

Lemma formatText_string_passes (text : jsstring) :
  formatText_string text = nl2br (linkify (Spec.escape text)).
Proof. unfold formatText_string. rewrite escapeHtml_string_escape. reflexivity. Qed.

(** [formatText] renders the tokens of the text one by one. *)
Lemma formatText_tokens (text : jsstring) (ts : list Spec.token) :
  Spec.tokens text ts ->
  formatText_string text = flat_map Spec.render ts.
Proof.
  rewrite formatText_string_passes.
  induction 1 as [| s u rest ts Hu _ IH | c s ts Hc _ IH].
  - reflexivity.
  - assert (Hu' := url_at_escape s). rewrite Hu in Hu'.
    unfold escape_pair in Hu'; cbn [option_map fst snd] in Hu'.
    rewrite (linkify_url _ _ _ Hu'), nl2br_app, IH.
    rewrite nl2br_anchor; [reflexivity|].
    apply escape_nonws. exact (url_at_nonws _ _ _ Hu).
  - cbn [flat_map Spec.render]. rewrite <- IH, <- nl2br_entity, <- nl2br_app.
    f_equal. rewrite escape_cons. destruct (special c) eqn:Es.
    + apply linkify_entity. assumption.
    + rewrite entity_plain by assumption. cbn [app].
      apply linkify_char.
      replace (c :: Spec.escape s) with (Spec.escape (c :: s))
        by (rewrite escape_cons, entity_plain by assumption; reflexivity).
      rewrite url_at_escape, Hc. reflexivity.
Qed.

(** Every text has a token sequence, and only one. *)
Lemma tokens_total (text : jsstring) : exists ts, Spec.tokens text ts.
Proof.
  remember (length text) as n eqn:Hn.
  revert text Hn. induction n as [n IH] using lt_wf_ind. intros text ->.
  destruct (Spec.url_at text) as [[u rest]|] eqn:Hu.
  - destruct (url_at_sound _ _ _ Hu) as [Heq Hne].
    destruct (IH (length rest)) with (text := rest) as [ts Hts]; auto.
    { subst text. rewrite length_app. destruct u; [congruence | simpl; lia]. }
    exists (Spec.TUrl u :: ts). econstructor; eauto.
  - destruct text as [|c s].
    + exists []. constructor.
    + destruct (IH (length s)) with (text := s) as [ts Hts]; auto.
      exists (Spec.TChar c :: ts). constructor; assumption.
Qed.

Lemma tokens_unique (text : jsstring) (ts1 ts2 : list Spec.token) :
  Spec.tokens text ts1 -> Spec.tokens text ts2 -> ts1 = ts2.
Proof.
  intros H1. revert ts2.
  induction H1 as [| s u rest ts Hu _ IH | c s ts Hc _ IH]; intros ts2 H2.
  - inversion H2; subst; [reflexivity|].
    match goal with H : Spec.url_at [] = Some _ |- _ => discriminate H end.
  - inversion H2; subst; try congruence.
    + match goal with H : Spec.url_at [] = Some _ |- _ => discriminate H end.
    + match goal with
      | H : Spec.url_at s = Some (?u', ?r') |- _ =>
          rewrite Hu in H; injection H as <- <-
      end.
      f_equal. auto.
  - inversion H2; subst; try congruence. f_equal. auto.
Qed.

(** ** The claims on the text helpers *)

(** Decoding undoes escaping. *)
Lemma unescape_escape (s : jsstring) : unescape_from 0 (Spec.escape s) = s.
Proof.
  induction s as [|c s IH]; [reflexivity|].
  rewrite escape_cons. destruct (special c) eqn:E.
  - apply special_cases in E.
    destruct E as [-> | [-> | [-> | [-> | ->]]]]; cbn; rewrite IH; reflexivity.
  - rewrite entity_plain by assumption. cbn [app unescape_from].
    assert (entity_at (c :: Spec.escape s) = None) as ->.
    { unfold special in E. cbn [existsb] in E. apply orb_false_iff in E.
      destruct E as [E _]. rewrite N.eqb_sym in E.
      unfold entity_at. cbn [find snd lit Spec.strip_prefix].
      rewrite E. reflexivity. }
    rewrite IH. reflexivity.
Qed.

Lemma escape_injective (x y : jsstring) :
  Spec.escape x = Spec.escape y -> x = y.
Proof.
  intros H. rewrite <- (unescape_escape x), <- (unescape_escape y), H.
  reflexivity.
Qed.

(** C6. [escapeHtml] replaces every ampersand, angle bracket, double
    quote and apostrophe of a string by its entity and leaves the other
    characters alone, so that its result holds none of the markup characters
    raw and loses nothing of the text; [<script>] comes out as literal text
    wherever it stands; the user message, the error message and the toast
    insert their text escaped, and [formatText] formats the escaped answer. *)
Theorem escapeHtml_entities :
  (forall text, escapeHtml (VString text) = Normal (Spec.escape text)) /\
  (forall text,
      forallb (fun c => negb (Spec.markup c)) (Spec.escape text) = true) /\
  (forall x y, Spec.escape x = Spec.escape y -> x = y) /\
  (forall pre post,
      Spec.escape (pre ++ lit "<script>" ++ post) =
      Spec.escape pre ++ lit "&lt;script&gt;" ++ Spec.escape post) /\
  (forall text s,
      chatMessages (exec (addUserMessage (VString text)) s) =
        chatMessages s ++ [userMessage (Spec.escape text)] /\
      chatMessages (exec (addErrorMessage (VString text)) s) =
        chatMessages s ++ [errorMessage (Spec.escape text)]) /\
  (forall text type s,
      toastContainer (exec (showToast (VString text) type) s) =
        toastContainer s ++ [toast type (toast_icon type) (Spec.escape text)]) /\
  (forall text,
      formatText (VString text) =
      Normal (replace_g re_newline (fun _ => br)
                (replace_g re_url (template anchor_template)
                   (Spec.escape text)))).
Proof.
  split; [intros text; cbn [escapeHtml]; rewrite escapeHtml_string_escape;
          reflexivity|].
  split; [exact escape_no_markup|].
  split; [exact escape_injective|].
  split; [intros pre post; rewrite !escape_app; reflexivity|].
  split; [|split].
  - intros text s. rewrite <- escapeHtml_string_escape. split; reflexivity.
  - intros text type s. rewrite <- escapeHtml_string_escape. reflexivity.
  - intros text. rewrite formatText_VString, formatText_string_passes.
    reflexivity.
Qed.

(** The run that [span] takes is maximal: what is left does not start
    with a character of the class. *)
Lemma span_rest (p : char -> bool) (s : jsstring) :
  match snd (Spec.span p s) with
  | [] => True
  | c :: _ => p c = false
  end.
Proof.
  induction s as [|c s IH]; [exact I|].
  cbn [Spec.span]. destruct (p c) eqn:E; [|exact E].
  destruct (Spec.span p s) as [run rest]. exact IH.
Qed.

(** A bare URL is a scheme and a non-empty body without whitespace, and
    ends where the text ends or whitespace begins. *)
Lemma url_at_maximal (s u rest : jsstring) :
  Spec.url_at s = Some (u, rest) ->
  s = u ++ rest /\
  (exists body,
      body <> [] /\ forallb nonws body = true /\
      (u = lit "http://" ++ body \/ u = lit "https://" ++ body)) /\
  match rest with
  | [] => True
  | c :: _ => isWhiteSpace c = true
  end.
Proof.
  intros H. split; [exact (proj1 (url_at_sound _ _ _ H))|].
  revert H. unfold Spec.url_at, Spec.scheme_of.
  assert (S1 : forall body, forallb nonws (fst (Spec.span nonws body)) = true).
  { induction body as [|c body IH]; [reflexivity|].
    cbn [Spec.span]. destruct (nonws c) eqn:Hc; [|reflexivity].
    destruct (Spec.span nonws body). cbn [fst forallb] in *.
    rewrite Hc, IH. reflexivity. }
  assert (G : forall scheme body,
             match Spec.span nonws body with
             | ([], _) => None
             | (run, rest) => Some (scheme ++ run, rest)
             end = Some (u, rest) ->
             (exists run, run <> [] /\ forallb nonws run = true /\
                          u = scheme ++ run) /\
             match rest with
             | [] => True
             | c :: _ => isWhiteSpace c = true
             end).
  { intros scheme body H. specialize (S1 body).
    pose proof (span_rest nonws body) as R.
    destruct (Spec.span nonws body) as [[|c run] rest']; [discriminate|].
    injection H as <- <-. cbn [fst snd] in *. split.
    - exists (c :: run). repeat split; [discriminate | exact S1].
    - destruct rest' as [|d rest']; [exact I|].
      unfold nonws in R. apply negb_false_iff in R. exact R. }
  destruct (Spec.strip_prefix (lit "https://") s) as [body|].
  - intros H. destruct (G _ _ H) as [(run & A & B & C) D].
    split; [exists run; auto | exact D].
  - destruct (Spec.strip_prefix (lit "http://") s) as [body|]; [|discriminate].
    intros H. destruct (G _ _ H) as [(run & A & B & C) D].
    split; [exists run; auto | exact D].
Qed.

(** C7. [formatText] turns every bare URL of the text, from its scheme
    to the last character before the next whitespace, into exactly one
    anchor with the (escaped) URL as [href] and as link text, [target]
    [_blank] and [rel] [noopener]; every line feed into a [<br>]; every
    other character into its entity.  Each text is such a sequence of
    tokens in one way only, and a URL token is a scheme with a non-empty
    body free of whitespace that ends where the text ends or whitespace
    begins.  The sample sentence gets a single anchor, around
    [http://example.com]. *)
Theorem formatText_links_and_breaks :
  (forall text,
      exists ts,
        Spec.tokens text ts /\
        (forall ts', Spec.tokens text ts' -> ts' = ts) /\
        formatText (VString text) = Normal (flat_map Spec.render ts)) /\
  (forall s u rest,
      Spec.url_at s = Some (u, rest) ->
      s = u ++ rest /\
      (exists body,
          body <> [] /\ forallb nonws body = true /\
          (u = lit "http://" ++ body \/ u = lit "https://" ++ body)) /\
      match rest with
      | [] => True
      | c :: _ => isWhiteSpace c = true
      end) /\
  Spec.tokens (lit "see http://example.com now")
    [ Spec.TChar (chr "s"); Spec.TChar (chr "e"); Spec.TChar (chr "e");
      Spec.TChar (chr " "); Spec.TUrl (lit "http://example.com");
      Spec.TChar (chr " "); Spec.TChar (chr "n"); Spec.TChar (chr "o");
      Spec.TChar (chr "w") ] /\
  formatText (VString (lit "see http://example.com now")) =
    Normal (lit "see " ++
            (lit "<a href=" ++ dq ++ lit "http://example.com" ++ dq ++
             lit " target=" ++ dq ++ lit "_blank" ++ dq ++
             lit " rel=" ++ dq ++ lit "noopener" ++ dq ++
             lit ">" ++ lit "http://example.com" ++ lit "</a>") ++
            lit " now").
Proof.
  split; [|split; [exact url_at_maximal|split]].
  - intros text. destruct (tokens_total text) as [ts Hts]. exists ts.
    split; [exact Hts|]. split.
    + intros ts' H'. exact (tokens_unique text ts' ts H' Hts).
    + rewrite formatText_VString, (formatText_tokens text ts Hts).
      reflexivity.
  - repeat (first [ apply Spec.tokens_nil
                  | apply Spec.tokens_char; [reflexivity|]
                  | eapply Spec.tokens_url; [reflexivity|] ]).
  - vm_compute. reflexivity.
Qed.

(** ** The settlement of a submission, path by path *)

Lemma settle_rejected (q : jsstring) (e : Exn) (now : Z) (s : State) :
  handleSubmit_settle q (Throw e) now s = (caught e s s, Normal tt).
Proof. reflexivity. Qed.

Lemma settle_success (q : jsstring) (data : Value) (a : jsstring) (now : Z) (s : State) :
  get_prop data (lit "answer") = Normal (VString a) ->
  handleSubmit_settle q (Normal (true, data)) now s =
  (settled s
     (without_typing (chatMessages s) ++ [aiMessage (formatText_string a)])
     (toastContainer s ++ [success_toast])
     (conversationHistory s ++
      [ {| question := q; answer := VString a; timestamp := now |} ])
     (console_errors s),
   Normal tt).
Proof.
  intros H. unfold handleSubmit_settle, try_catch_finally, handleSubmit_response.
  unfold bind at 1. cbn [removeTypingIndicator modify].
  rewrite H. reflexivity.
Qed.

Lemma get_prop_throws (v : Value) (key : jsstring) (e : Exn) :
  get_prop v key = Throw e -> e = TypeError.
Proof.
  destruct v; cbn; try congruence.
  destruct (lookup key props); congruence.
Qed.

Lemma escapeHtml_not_string (v : Value) :
  (forall a, v <> VString a) -> escapeHtml v = Throw TypeError.
Proof. destruct v; intros H; try reflexivity. exfalso; exact (H s eq_refl). Qed.

Lemma formatText_not_string (v : Value) :
  (forall a, v <> VString a) -> formatText v = Throw TypeError.
Proof.
  intros H. unfold formatText. rewrite escapeHtml_not_string by assumption.
  reflexivity.
Qed.

(** A body without a string [answer] under a success status: the [catch]
    block runs. *)
Lemma settle_no_answer (q : jsstring) (data : Value) (now : Z) (s : State) :
  (forall a, get_prop data (lit "answer") <> Normal (VString a)) ->
  handleSubmit_settle q (Normal (true, data)) now s =
  (caught TypeError s (after_remove s), Normal tt).
Proof.
  intros H. unfold handleSubmit_settle, try_catch_finally, handleSubmit_response.
  unfold bind at 1. cbn [removeTypingIndicator modify].
  destruct (get_prop data (lit "answer")) as [v|e] eqn:E.
  - assert (Hv : forall a, v <> VString a) by (intros a ->; exact (H a eq_refl)).
    unfold bind at 1. cbn [eval]. unfold addAIMessage, bind at 1. cbn [eval].
    rewrite formatText_not_string by assumption. reflexivity.
  - apply get_prop_throws in E. subst e. reflexivity.
Qed.

Lemma settle_failure_text
      (q : jsstring) (data : Value) (e : jsstring) (now : Z) (s : State) :
  get_prop data (lit "error") = Normal (VString e) -> e <> [] ->
  handleSubmit_settle q (Normal (false, data)) now s =
  (settled s
     (without_typing (chatMessages s) ++ [errorMessage (escapeHtml_string e)])
     (toastContainer s ++ [error_toast (escapeHtml_string e)])
     (conversationHistory s)
     (console_errors s),
   Normal tt).
Proof.
  intros H He. unfold handleSubmit_settle, try_catch_finally, handleSubmit_response.
  unfold bind at 1. cbn [removeTypingIndicator modify].
  rewrite H. destruct e; [congruence|]. reflexivity.
Qed.

Lemma settle_failure_fallback
      (q : jsstring) (data v : Value) (now : Z) (s : State) :
  get_prop data (lit "error") = Normal v -> truthy v = false ->
  handleSubmit_settle q (Normal (false, data)) now s =
  (settled s
     (without_typing (chatMessages s) ++ [errorMessage fallback_text])
     (toastContainer s ++ [error_toast (lit "Error")])
     (conversationHistory s)
     (console_errors s),
   Normal tt).
Proof.
  intros H Hv. unfold handleSubmit_settle, try_catch_finally, handleSubmit_response.
  unfold bind at 1. cbn [removeTypingIndicator modify].
  rewrite H. unfold or_else.
  cbv beta iota delta
      [bind eval addErrorMessage escapeHtml appendChild_chatMessages modify].
  rewrite Hv. reflexivity.
Qed.

Lemma settle_failure_caught
      (q : jsstring) (data : Value) (now : Z) (s : State) :
  (forall v, get_prop data (lit "error") = Normal v ->
             truthy v = true /\ forall a, v <> VString a) ->
  handleSubmit_settle q (Normal (false, data)) now s =
  (caught TypeError s (after_remove s), Normal tt).
Proof.
  intros H. unfold handleSubmit_settle, try_catch_finally, handleSubmit_response.
  unfold bind at 1. cbn [removeTypingIndicator modify].
  destruct (get_prop data (lit "error")) as [v|e] eqn:E.
  - destruct (H v eq_refl) as [Ht Hs].
    unfold bind at 1. cbn [eval]. unfold or_else. rewrite Ht.
    unfold addErrorMessage, bind at 1. cbn [eval].
    rewrite escapeHtml_not_string by assumption. reflexivity.
  - apply get_prop_throws in E. subst e. reflexivity.
Qed.

(** The cases of a body under a failure status. *)
Lemma error_field_cases (data : Value) :
  (exists e, get_prop data (lit "error") = Normal (VString e) /\ e <> []) \/
  (exists v, get_prop data (lit "error") = Normal v /\ truthy v = false) \/
  (forall v, get_prop data (lit "error") = Normal v ->
             truthy v = true /\ forall a, v <> VString a).
Proof.
  destruct (get_prop data (lit "error")) as [v|e] eqn:E.
  - destruct (truthy v) eqn:Ht.
    + destruct v; try (right; right; intros v' [= <-]; split;
                       [assumption | discriminate]).
      left. exists s. split; [reflexivity|]. intros ->. discriminate.
    + right; left. exists v. auto.
  - right; right. intros v [=].
Qed.

(** ** Entering [handleSubmit] *)

#[local] Arguments escapeHtml_string : simpl never.
#[local] Arguments formatText_string : simpl never.
#[local] Arguments trim : simpl never.

Ltac setters :=
  cbv beta iota delta
      [set_questionInput_value set_questionInput_height set_submitBtn_disabled
       set_spinner_hidden set_btnIcon_hidden set_btnText_textContent
       set_chatMessages set_welcomeScreen_display set_toastContainer
       set_conversationHistory set_isLoading set_console_errors set_network
       questionInput_value questionInput_height submitBtn_disabled
       spinner_hidden btnIcon_hidden btnText_textContent chatMessages
       welcomeScreen_display toastContainer conversationHistory isLoading
       console_errors network].

Lemma handleSubmit_noop (s : State) :
  trim (questionInput_value s) = [] \/ isLoading s = true ->
  handleSubmit s = (s, Normal None).
Proof.
  intros H. unfold handleSubmit, bind, get.
  destruct H as [-> | ->]; [reflexivity|].
  rewrite orb_true_r. reflexivity.
Qed.

Lemma handleSubmit_accept (s : State) :
  trim (questionInput_value s) <> [] -> isLoading s = false ->
  handleSubmit s =
  (entered s, Normal (Some (AwaitFetch (trim (questionInput_value s))))).
Proof.
  destruct s as [v h d sp bi bt msgs w ts hist l ce net].
  cbn [questionInput_value isLoading]. intros Hq ->.
  unfold handleSubmit, entered, bind at 1, get.
  cbn [questionInput_value isLoading].
  assert (truthy (VString (trim v)) = true) as ->
    by (destruct (trim v); [congruence | reflexivity]).
  destruct w;
    cbv beta iota delta
        [bind ret modify eval addUserMessage escapeHtml appendChild_chatMessages
         setLoadingState addTypingIndicator fetch negb orb];
    setters; rewrite <- app_assoc; reflexivity.
Qed.

(** ** [clearChat] *)

Lemma clearChat_declined (s : State) : clearChat false s = (s, Normal tt).
Proof. reflexivity. Qed.

Lemma clearChat_confirmed (s : State) (d : jsstring) :
  welcomeScreen_display s = Some d ->
  clearChat true s =
  (set_toastContainer (toastContainer s ++ [info_toast (lit "Chat cleared")])
     (set_conversationHistory []
        (set_welcomeScreen_display (Some (lit "flex"))
           (set_chatMessages [] s))),
   Normal tt).
Proof.
  destruct s as [v h ds sp bi bt msgs w ts hist l ce net].
  cbn [welcomeScreen_display]. intros ->. reflexivity.
Qed.

(** On a page without the welcome placeholder the confirmed call empties
    the message list and then throws. *)
Lemma clearChat_no_placeholder (s : State) :
  welcomeScreen_display s = None ->
  clearChat true s = (set_chatMessages [] s, Throw TypeError).
Proof.
  destruct s as [v h ds sp bi bt msgs w ts hist l ce net].
  cbn [welcomeScreen_display]. intros ->. reflexivity.
Qed.

(** ** Typing indicators in the message list *)

Lemma count_app {A : Type} (p : A -> bool) (x y : list A) :
  count p (x ++ y) = count p x + count p y.
Proof. unfold count. rewrite filter_app, length_app. reflexivity. Qed.

Lemma count_zero_existsb {A : Type} (p : A -> bool) (l : list A) :
  count p l = 0 <-> existsb p l = false.
Proof.
  unfold count. induction l as [|a l IH]; [cbn; tauto|].
  cbn. destruct (p a); cbn; [split; discriminate | exact IH].
Qed.

Lemma remove_first_absent (p : Element -> bool) (l : list Element) :
  existsb p l = false -> remove_first p l = l.
Proof.
  induction l as [|a l IH]; [reflexivity|].
  cbn. destruct (p a); cbn; [discriminate|]. intros H. rewrite IH; auto.
Qed.

Lemma count_remove_first (p : Element -> bool) (l : list Element) :
  count p (remove_first p l) = pred (count p l).
Proof.
  unfold count. induction l as [|a l IH]; [reflexivity|].
  cbn. destruct (p a) eqn:E; [reflexivity|]. cbn. rewrite E. exact IH.
Qed.

Lemma without_typing_clean (l : list Element) :
  count is_typingIndicator l <= 1 ->
  existsb is_typingIndicator (without_typing l) = false.
Proof.
  intros H. apply count_zero_existsb. unfold without_typing.
  rewrite count_remove_first. lia.
Qed.

Lemma without_typing_twice (l : list Element) :
  count is_typingIndicator l <= 1 ->
  without_typing (without_typing l) = without_typing l.
Proof.
  intros H. apply remove_first_absent. apply without_typing_clean. exact H.
Qed.

Lemma existsb_snoc_clean (l : list Element) (m : Element) :
  existsb is_typingIndicator l = false -> is_typingIndicator m = false ->
  existsb is_typingIndicator (l ++ [m]) = false.
Proof. intros Hl Hm. rewrite existsb_app, Hl. cbn. rewrite Hm. reflexivity. Qed.

(** ** The invariant of the event loop *)

Lemma Inv_pending (sys : Sys) (i : nat) (p : Pending) :
  Inv sys -> nth_error (inflight sys) i = Some p ->
  i = 0 /\ inflight sys = [p] /\ isLoading (page sys) = true /\
  count is_typingIndicator (chatMessages (page sys)) <= 1.
Proof.
  unfold Inv. destruct (inflight sys) as [|p0 [|p1 l]]; intros H Hn.
  - destruct i; discriminate.
  - destruct i as [|[|i]]; try discriminate. cbn in Hn. injection Hn as ->.
    tauto.
  - contradiction.
Qed.

(** Every settlement that ends a call leaves the controls idle, and the
    message list without typing indicator when it had one at most. *)
Lemma settle_shape (q : jsstring) (outcome : Completion (bool * Value))
      (now : Z) (s : State) :
  exists msgs toasts history errors,
    exec (handleSubmit_settle q outcome now) s =
    settled s msgs toasts history errors /\
    (count is_typingIndicator (chatMessages s) <= 1 ->
     existsb is_typingIndicator msgs = false).
Proof.
  assert (Hw : count is_typingIndicator (chatMessages s) <= 1 ->
               forall m, is_typingIndicator m = false ->
               existsb is_typingIndicator
                 (without_typing (chatMessages s) ++ [m]) = false).
  { intros Hc m Hm. apply existsb_snoc_clean; [|assumption].
    apply without_typing_clean, Hc. }
  assert (Hcaught : forall e,
             exists msgs toasts history errors,
               caught e s (after_remove s) = settled s msgs toasts history errors /\
               (count is_typingIndicator (chatMessages s) <= 1 ->
                existsb is_typingIndicator msgs = false)).
  { intros e. do 4 eexists. split; [reflexivity|]. intros Hc.
    cbn [after_remove set_chatMessages chatMessages].
    rewrite without_typing_twice by assumption. apply Hw; auto. }
  unfold exec. destruct outcome as [[[|] data]|e].
  - destruct (get_prop data (lit "answer")) as [[]|] eqn:E;
      try (rewrite settle_no_answer by (rewrite E; congruence);
           apply Hcaught).
    rewrite (settle_success q _ _ now s E). do 4 eexists.
    split; [reflexivity|]. intros Hc. apply Hw; auto.
  - destruct (error_field_cases data) as [(e & He & Hne) | [(v & Hv & Ht) | H]].
    + rewrite (settle_failure_text q _ _ now s He Hne). do 4 eexists.
      split; [reflexivity|]. intros Hc. apply Hw; auto.
    + rewrite (settle_failure_fallback q _ _ now s Hv Ht). do 4 eexists.
      split; [reflexivity|]. intros Hc. apply Hw; auto.
    + rewrite settle_failure_caught by assumption. apply Hcaught.
  - rewrite settle_rejected. do 4 eexists. split; [reflexivity|].
    intros Hc. apply Hw; auto.
Qed.

Lemma settle_idle (q : jsstring) (outcome : Completion (bool * Value))
      (now : Z) (s : State) :
  count is_typingIndicator (chatMessages s) <= 1 ->
  let s' := exec (handleSubmit_settle q outcome now) s in
  isLoading s' = false /\
  existsb is_typingIndicator (chatMessages s') = false.
Proof.
  intros Hc.
  destruct (settle_shape q outcome now s) as (m & t & h & e & -> & H).
  split; [reflexivity | exact (H Hc)].
Qed.

Lemma step_Inv (sys : Sys) (ev : Event) : Inv sys -> Inv (step sys ev).
Proof.
  intros H. destruct ev as [| i r | i r now | text h | confirmed].
  - (* Submit *)
    cbn [step].
    destruct (list_eq_dec N.eq_dec (trim (questionInput_value (page sys))) [])
      as [E|E].
    + rewrite handleSubmit_noop by auto. destruct sys; exact H.
    + destruct (isLoading (page sys)) eqn:L.
      * rewrite handleSubmit_noop by auto. destruct sys; exact H.
      * rewrite handleSubmit_accept by assumption.
        unfold Inv in *. cbn [inflight page].
        destruct (inflight sys) as [|p0 [|p1 l]]; [|destruct H; congruence|contradiction].
        cbn [app]. split; [reflexivity|]. destruct H as [_ H].
        cbn [entered chatMessages]. rewrite count_app.
        apply count_zero_existsb in H. rewrite H. cbn. lia.
  - (* FetchSettled *)
    cbn [step]. destruct (nth_error (inflight sys) i) as [[q|q ok]|] eqn:E;
      try exact H.
    destruct (Inv_pending _ _ _ H E) as (-> & Hi & Hl & Hc).
    destruct r as [ok|e].
    + unfold Inv in *. cbn [inflight page]. rewrite Hi in *. exact H.
    + unfold Inv. cbn [inflight page]. rewrite Hi. cbn [remove_nth].
      apply settle_idle. assumption.
  - (* JsonSettled *)
    cbn [step]. destruct (nth_error (inflight sys) i) as [[q|q ok]|] eqn:E;
      try exact H.
    destruct (Inv_pending _ _ _ H E) as (-> & Hi & Hl & Hc).
    unfold Inv. cbn [inflight page]. rewrite Hi. cbn [remove_nth].
    apply settle_idle. assumption.
  - (* Input *)
    unfold Inv in *. cbn [step inflight page].
    destruct (inflight sys) as [|p0 [|p1 l]]; exact H.
  - (* ClearChat *)
    unfold Inv in *. cbn [step inflight page].
    destruct confirmed; [|destruct (inflight sys) as [|p0 [|p1 l]]; exact H].
    assert (G : isLoading (exec (clearChat true) (page sys)) = isLoading (page sys) /\
                chatMessages (exec (clearChat true) (page sys)) = []).
    { unfold exec. destruct (welcomeScreen_display (page sys)) as [d|] eqn:W.
      - rewrite (clearChat_confirmed _ _ W). split; reflexivity.
      - rewrite (clearChat_no_placeholder _ W). split; reflexivity. }
    destruct G as [-> ->].
    destruct (inflight sys) as [|p0 [|p1 l]]; [| |contradiction];
      (split; [apply H | cbn; lia || reflexivity]).
Qed.

Lemma initial_Inv (sys : Sys) : initial sys -> Inv sys.
Proof. intros (Hl & _ & Ht & Hi). unfold Inv. rewrite Hi. auto. Qed.

Lemma run_Inv (evs : list Event) :
  forall sys, Inv sys -> Inv (run sys evs).
Proof.
  induction evs as [|ev evs IH]; intros sys H; [exact H|].
  cbn. apply IH, step_Inv, H.
Qed.

Lemma Reachable_Inv (sys : Sys) : Reachable sys -> Inv sys.
Proof.
  intros (sys0 & evs & H0 & ->). apply run_Inv, initial_Inv, H0.
Qed.

(** ** [trim] *)

Lemma trimStart_nil_iff (s : jsstring) :
  trimStart s = [] <-> forallb isWhiteSpace s = true.
Proof.
  induction s as [|c s IH]; [cbn; tauto|].
  cbn. destruct (isWhiteSpace c); [exact IH|]. split; discriminate.
Qed.

Lemma trimStart_head (s t : jsstring) (c : char) :
  trimStart s = c :: t -> isWhiteSpace c = false.
Proof.
  induction s as [|d s IH]; [discriminate|].
  cbn. destruct (isWhiteSpace d) eqn:E; [exact IH|].
  intros [= -> _]. exact E.
Qed.

(** A text trims to nothing exactly when it is empty or all whitespace. *)
Lemma trim_nil_iff (s : jsstring) :
  trim s = [] <-> forallb isWhiteSpace s = true.
Proof.
  unfold trim, trimEnd. split.
  - intros H. apply trimStart_nil_iff.
    destruct (trimStart s) as [|c t] eqn:E; [reflexivity|].
    apply trimStart_head in E.
    apply (f_equal (@rev _)) in H. rewrite rev_involutive in H. cbn [rev] in H.
    apply trimStart_nil_iff in H. rewrite forallb_forall in H.
    rewrite (H c) in E by (apply in_or_app; right; left; reflexivity).
    discriminate.
  - intros H. apply trimStart_nil_iff in H. rewrite H. reflexivity.
Qed.

Lemma initial_sys0 : initial sys0.
Proof. repeat split. Qed.

Lemma Reachable_sys_fetching : Reachable sys_fetching.
Proof. exists sys0, [Submit]. split; [exact initial_sys0 | reflexivity]. Defined.

Lemma Reachable_sys_parsing (ok : bool) : Reachable (sys_parsing ok).
Proof.
  exists sys0, [Submit; FetchSettled 0 (Normal ok)].
  split; [exact initial_sys0 | reflexivity].
Defined.

(** ** The claims on the submit handler and on [clearChat] *)

(** Shared step: a settled call of a reachable system is the only one. *)
Lemma Reachable_pending (sys : Sys) (i : nat) (p : Pending) :
  Reachable sys -> nth_error (inflight sys) i = Some p ->
  i = 0 /\ inflight sys = [p] /\ isLoading (page sys) = true /\
  count is_typingIndicator (chatMessages (page sys)) <= 1.
Proof. intros H. apply Inv_pending, Reachable_Inv, H. Qed.

Lemma step_JsonSettled (sys : Sys) (q : jsstring) (ok : bool)
      (r : Completion Value) (now : Z) :
  inflight sys = [AwaitJson q ok] ->
  step sys (JsonSettled 0 r now) =
  {| page :=
       exec (handleSubmit_settle q
               match r with
               | Normal data => Normal (ok, data)
               | Throw e => Throw e
               end now) (page sys);
     inflight := [] |}.
Proof. intros H. cbn [step]. rewrite H. reflexivity. Qed.

Lemma step_FetchSettled_Throw (sys : Sys) (q : jsstring) (e : Exn) :
  inflight sys = [AwaitFetch q] ->
  step sys (FetchSettled 0 (Throw e)) =
  {| page := exec (handleSubmit_settle q (Throw e) 0%Z) (page sys);
     inflight := [] |}.
Proof. intros H. cbn [step]. rewrite H. reflexivity. Qed.

(** ** What the builders put on the page *)

Lemma message_html_blocks (label content : jsstring) :
  includes (label_block label) (message_html label content) /\
  includes (content_block content) (message_html label content).
Proof.
  split.
  - exists (nl ++ lit "    <div>" ++ nl ++ lit "      "),
           (nl ++ lit "      " ++ content_block content ++
            nl ++ lit "    </div>" ++ nl ++ lit "  ").
    unfold message_html, label_block, content_block, dq.
    rewrite <- !app_assoc. reflexivity.
  - exists (nl ++ lit "    <div>" ++ nl ++ lit "      " ++ label_block label ++
            nl ++ lit "      "),
           (nl ++ lit "    </div>" ++ nl ++ lit "  ").
    unfold message_html, label_block, content_block, dq.
    rewrite <- !app_assoc. reflexivity.
Qed.

Lemma userMessage_shows (content : jsstring) :
  shows_message (lit "user") (lit "You") content (userMessage content).
Proof.
  split; [reflexivity|]. split; [reflexivity|].
  apply message_html_blocks.
Qed.

Lemma aiMessage_shows (content : jsstring) :
  shows_message (lit "ai") (lit "AI Assistant") content (aiMessage content).
Proof.
  split; [reflexivity|]. split; [reflexivity|].
  apply message_html_blocks.
Qed.

Lemma errorMessage_shows (content : jsstring) :
  shows_message (lit "error") (lit "Error") content (errorMessage content).
Proof.
  split; [reflexivity|]. split; [reflexivity|].
  apply message_html_blocks.
Qed.

Lemma toast_shows (type icon content : jsstring) :
  shows_toast type content (toast type icon content).
Proof.
  split; [reflexivity|].
  exists (nl ++ lit "    <span style=" ++ dq ++
          lit "font-weight: bold; font-size: 1.2em;" ++ dq ++
          lit ">" ++ icon ++ lit "</span>" ++ nl ++ lit "    "),
         (nl ++ lit "  ").
  cbn [toast innerHTML]. unfold toast_html.
  rewrite <- !app_assoc. reflexivity.
Qed.

Lemma failed_with_rendered (text toast_text : jsstring) (sys sys' : Sys) :
  failed_with text toast_text sys sys' ->
  error_rendered text toast_text sys sys'.
Proof.
  intros (Hm & Ht & _).
  exists (errorMessage text), (toast (lit "error") [10005%N] toast_text).
  split; [exact Hm|]. split; [apply errorMessage_shows|].
  split; [exact Ht|]. apply toast_shows.
Qed.

(** C1. In any state that the event loop reaches from a fresh page, a
    response with a success status and a string [answer]: exactly one
    element takes the place of the typing indicator, an assistant message
    (class [message message-ai], label [AI Assistant]) whose content block
    holds the formatted answer, which is the rendering of the tokens of
    the answer; exactly one turn (the question sent, the answer, the time)
    is appended to the history; one toast is added, of type [success] with
    the text [Message sent successfully]; no typing indicator is left and
    the call is over. *)
Theorem handleSubmit_success
        (sys : Sys) (i : nat) (q a : jsstring) (data : Value) (now : Z) :
  Reachable sys ->
  nth_error (inflight sys) i = Some (AwaitJson q true) ->
  get_prop data (lit "answer") = Normal (VString a) ->
  let sys' := step sys (JsonSettled i (Normal data) now) in
  formatText (VString a) = Normal (formatText_string a) /\
  chatMessages (page sys') =
    remove_first is_typingIndicator (chatMessages (page sys)) ++
    [aiMessage (formatText_string a)] /\
  conversationHistory (page sys') =
    conversationHistory (page sys) ++
    [ {| question := q; answer := VString a; timestamp := now |} ] /\
  toastContainer (page sys') =
    toastContainer (page sys) ++
    [toast (lit "success") [10003%N] (lit "Message sent successfully")] /\
  existsb is_typingIndicator (chatMessages (page sys')) = false /\
  inflight sys' = [] /\
  (exists e t,
      chatMessages (page sys') =
        remove_first is_typingIndicator (chatMessages (page sys)) ++ [e] /\
      shows_message (lit "ai") (lit "AI Assistant") (formatText_string a) e /\
      toastContainer (page sys') = toastContainer (page sys) ++ [t] /\
      shows_toast (lit "success") (lit "Message sent successfully") t) /\
  (forall ts, Spec.tokens a ts -> formatText_string a = flat_map Spec.render ts).
Proof.
  intros HR Hn Ha.
  destruct (Reachable_pending _ _ _ HR Hn) as (-> & Hi & _ & Hc).
  cbv zeta. rewrite (step_JsonSettled _ _ _ _ _ Hi). cbn [page inflight].
  unfold exec. rewrite (settle_success q _ _ now _ Ha).
  cbn [fst settled chatMessages conversationHistory toastContainer].
  do 4 (split; [reflexivity|]).
  split; [apply existsb_snoc_clean;
          [apply without_typing_clean, Hc | reflexivity]|].
  split; [reflexivity|]. split.
  - exists (aiMessage (formatText_string a)), success_toast.
    split; [reflexivity|]. split; [apply aiMessage_shows|].
    split; [reflexivity|]. apply toast_shows.
  - intros ts Hts. apply formatText_tokens, Hts.
Qed.

Lemma handleSubmit_success_witness :
  Reachable (sys_parsing true) /\
  nth_error (inflight (sys_parsing true)) 0 = Some (AwaitJson (lit "hello") true) /\
  get_prop (VObject [(lit "answer", VString (lit "hi"))]) (lit "answer") =
    Normal (VString (lit "hi")) /\
  conversationHistory
    (page (step (sys_parsing true)
             (JsonSettled 0 (Normal (VObject [(lit "answer", VString (lit "hi"))]))
                          1700000000000%Z))) =
  [ {| question := lit "hello"; answer := VString (lit "hi");
       timestamp := 1700000000000%Z |} ] /\
  exists e t,
    chatMessages
      (page (step (sys_parsing true)
               (JsonSettled 0 (Normal (VObject [(lit "answer", VString (lit "hi"))]))
                            1700000000000%Z))) =
      remove_first is_typingIndicator (chatMessages (page (sys_parsing true))) ++ [e] /\
    shows_message (lit "ai") (lit "AI Assistant") (lit "hi") e /\
    toastContainer
      (page (step (sys_parsing true)
               (JsonSettled 0 (Normal (VObject [(lit "answer", VString (lit "hi"))]))
                            1700000000000%Z))) =
      toastContainer (page (sys_parsing true)) ++ [t] /\
    shows_toast (lit "success") (lit "Message sent successfully") t.
Proof.
  split; [exact (Reachable_sys_parsing true)|].
  split; [reflexivity|]. split; [reflexivity|].
  split.
  - exact (proj1 (proj2 (proj2
      (handleSubmit_success (sys_parsing true) 0 (lit "hello") (lit "hi")
         (VObject [(lit "answer", VString (lit "hi"))]) 1700000000000%Z
         (Reachable_sys_parsing true) eq_refl eq_refl)))).
  - exact (proj1 (proj2 (proj2 (proj2 (proj2 (proj2 (proj2
      (handleSubmit_success (sys_parsing true) 0 (lit "hello") (lit "hi")
         (VObject [(lit "answer", VString (lit "hi"))]) 1700000000000%Z
         (Reachable_sys_parsing true) eq_refl eq_refl)))))))).
Defined.

Lemma caught_failed_with (e : Exn) (sys sys' : Sys) (s1 : State) :
  page sys' = caught e (page sys) s1 ->
  chatMessages s1 = chatMessages (page sys) \/
  (chatMessages s1 = without_typing (chatMessages (page sys)) /\
   count is_typingIndicator (chatMessages (page sys)) <= 1) ->
  toastContainer s1 = toastContainer (page sys) ->
  conversationHistory s1 = conversationHistory (page sys) ->
  failed_with connectivity_text (lit "Connection error") sys sys'.
Proof.
  intros Hp Hm Ht Hh. unfold failed_with. rewrite Hp.
  cbn [caught settled chatMessages toastContainer conversationHistory].
  rewrite Ht, Hh. repeat split.
  destruct Hm as [-> | [-> Hc]]; [reflexivity|].
  rewrite without_typing_twice by assumption. reflexivity.
Qed.

(** A failure status with a non-empty string [error]: that text is shown. *)
Lemma failure_text_shown (sys : Sys) (q e : jsstring) (data : Value) (now : Z) :
  inflight sys = [AwaitJson q false] ->
  get_prop data (lit "error") = Normal (VString e) -> e <> [] ->
  failed_with (escapeHtml_string e) (escapeHtml_string e) sys
              (step sys (JsonSettled 0 (Normal data) now)).
Proof.
  intros Hi He Hne. rewrite (step_JsonSettled _ _ _ (Normal data) now Hi).
  unfold exec. rewrite (settle_failure_text q _ _ now _ He Hne).
  repeat split.
Qed.

(** A failed submission, by the way it fails. *)
Lemma submission_fails_with (sys : Sys) (i : nat) (q : jsstring) :
  Reachable sys ->
  (forall e,
      nth_error (inflight sys) i = Some (AwaitFetch q) ->
      failed_with connectivity_text (lit "Connection error")
                  sys (step sys (FetchSettled i (Throw e)))) /\
  (forall ok e now,
      nth_error (inflight sys) i = Some (AwaitJson q ok) ->
      failed_with connectivity_text (lit "Connection error")
                  sys (step sys (JsonSettled i (Throw e) now))) /\
  (forall data now,
      nth_error (inflight sys) i = Some (AwaitJson q false) ->
      let sys' := step sys (JsonSettled i (Normal data) now) in
      (exists text toast_text, failed_with text toast_text sys sys') /\
      (forall e, get_prop data (lit "error") = Normal (VString e) -> e <> [] ->
                 failed_with (escapeHtml_string e) (escapeHtml_string e) sys sys')).
Proof.
  intros HR. split; [|split].
  - intros e Hn.
    destruct (Reachable_pending _ _ _ HR Hn) as (-> & Hi & _ & Hc).
    rewrite (step_FetchSettled_Throw _ _ e Hi).
    unfold exec. rewrite settle_rejected.
    apply (caught_failed_with e sys _ (page sys)); auto.
  - intros ok e now Hn.
    destruct (Reachable_pending _ _ _ HR Hn) as (-> & Hi & _ & Hc).
    rewrite (step_JsonSettled _ _ _ (Throw e) now Hi).
    unfold exec. rewrite settle_rejected.
    apply (caught_failed_with e sys _ (page sys)); auto.
  - intros data now Hn.
    destruct (Reachable_pending _ _ _ HR Hn) as (-> & Hi & _ & Hc).
    cbv zeta. rewrite (step_JsonSettled _ _ _ (Normal data) now Hi).
    destruct (error_field_cases data) as [(e & He & Hne) | [(v & Hv & Ht) | H]].
    + pose proof (failure_text_shown sys q e data now Hi He Hne) as F.
      rewrite (step_JsonSettled _ _ _ (Normal data) now Hi) in F.
      split; [eauto|]. intros e' He' _. rewrite He in He'.
      injection He' as <-. exact F.
    + unfold exec. rewrite (settle_failure_fallback q _ _ now _ Hv Ht).
      split; [do 2 eexists; repeat split|].
      intros e He Hne. rewrite Hv in He. injection He as ->.
      destruct e; [congruence | discriminate].
    + unfold exec. rewrite settle_failure_caught by assumption.
      split.
      * do 2 eexists.
        apply (caught_failed_with TypeError sys _ (after_remove (page sys)));
          auto.
      * intros e He Hne. destruct (H _ He) as [_ Hs].
        exfalso. exact (Hs e eq_refl).
Qed.

(** C2. In any state that the event loop reaches from a fresh page, a
    submission that fails shows exactly one error message and an error
    toast and appends nothing to the history: with the connectivity
    text when [fetch] or [response.json()] rejects, and under a failure
    status with a text that is the escaped [error] of the body whenever
    that is a non-empty string.  The element added is an error message
    (class [message message-error], label [Error]) whose content block
    holds that text, and the toast has the class [toast error] and holds
    its text. *)
Theorem handleSubmit_failure (sys : Sys) (i : nat) (q : jsstring) :
  Reachable sys ->
  (forall e,
      nth_error (inflight sys) i = Some (AwaitFetch q) ->
      let sys' := step sys (FetchSettled i (Throw e)) in
      failed_with connectivity_text (lit "Connection error") sys sys' /\
      error_rendered connectivity_text (lit "Connection error") sys sys') /\
  (forall ok e now,
      nth_error (inflight sys) i = Some (AwaitJson q ok) ->
      let sys' := step sys (JsonSettled i (Throw e) now) in
      failed_with connectivity_text (lit "Connection error") sys sys' /\
      error_rendered connectivity_text (lit "Connection error") sys sys') /\
  (forall data now,
      nth_error (inflight sys) i = Some (AwaitJson q false) ->
      let sys' := step sys (JsonSettled i (Normal data) now) in
      (exists text toast_text,
          failed_with text toast_text sys sys' /\
          error_rendered text toast_text sys sys') /\
      (forall e, get_prop data (lit "error") = Normal (VString e) -> e <> [] ->
                 failed_with (escapeHtml_string e) (escapeHtml_string e) sys sys' /\
                 error_rendered (Spec.escape e) (Spec.escape e) sys sys')).
Proof.
  intros HR. destruct (submission_fails_with sys i q HR) as (A & B & C).
  split; [|split].
  - intros e Hn. cbv zeta. specialize (A e Hn).
    split; [exact A | apply failed_with_rendered, A].
  - intros ok e now Hn. cbv zeta. specialize (B ok e now Hn).
    split; [exact B | apply failed_with_rendered, B].
  - intros data now Hn. cbv zeta. destruct (C data now Hn) as [C1 C2]. split.
    + destruct C1 as (text & toast_text & F). exists text, toast_text.
      split; [exact F | apply failed_with_rendered, F].
    + intros e He Hne. specialize (C2 e He Hne).
      split; [exact C2|]. rewrite <- escapeHtml_string_escape.
      apply failed_with_rendered, C2.
Qed.

Lemma handleSubmit_failure_witness :
  Reachable (sys_parsing false) /\
  failed_with (lit "bad question") (lit "bad question")
    (sys_parsing false)
    (step (sys_parsing false) (JsonSettled 0 (Normal bad_question) 0%Z)) /\
  error_rendered (lit "bad question") (lit "bad question")
    (sys_parsing false)
    (step (sys_parsing false) (JsonSettled 0 (Normal bad_question) 0%Z)).
Proof.
  split; [exact (Reachable_sys_parsing false)|].
  exact (proj2
    (proj2 (proj2
       (handleSubmit_failure (sys_parsing false) 0 (lit "hello")
          (Reachable_sys_parsing false)))
       bad_question 0%Z eq_refl)
    (lit "bad question") eq_refl ltac:(discriminate)).
Defined.

Lemma sys_eta (sys : Sys) : {| page := page sys; inflight := inflight sys |} = sys.
Proof. destruct sys; reflexivity. Qed.

Lemma step_Submit_noop (sys : Sys) :
  trim (questionInput_value (page sys)) = [] \/ isLoading (page sys) = true ->
  step sys Submit = sys.
Proof.
  intros H. cbn [step]. rewrite handleSubmit_noop by assumption. apply sys_eta.
Qed.

(** C3. [handleSubmit] does nothing at all (the page is untouched, no
    request leaves, no call is suspended) when the input trims to the empty
    string, that is when it is empty or all whitespace, and when the
    loading flag is up, whatever the input; while a call is suspended the
    flag is up, so no second request leaves and at most one call is in
    flight. *)
Theorem handleSubmit_ignored :
  (forall s : State,
      trim (questionInput_value s) = [] \/ isLoading s = true ->
      handleSubmit s = (s, Normal None)) /\
  (forall v : jsstring, trim v = [] <-> forallb isWhiteSpace v = true) /\
  (forall sys : Sys,
      Reachable sys -> inflight sys <> [] ->
      isLoading (page sys) = true /\
      length (inflight sys) = 1 /\
      step sys Submit = sys).
Proof.
  split; [exact handleSubmit_noop|]. split; [exact trim_nil_iff|].
  intros sys HR Hne.
  destruct (inflight sys) as [|p l] eqn:E; [congruence|].
  destruct (Reachable_pending sys 0 p HR) as (_ & Hi & Hl & _).
  { rewrite E. reflexivity. }
  rewrite E in Hi. injection Hi as ->.
  repeat split; [exact Hl|]. apply step_Submit_noop. auto.
Qed.

Lemma handleSubmit_ignored_witness :
  (trim (questionInput_value (page sys_fetching)) = [] \/
   isLoading (page sys_fetching) = true) /\
  Reachable sys_fetching /\ inflight sys_fetching <> [] /\
  handleSubmit (page sys_fetching) = (page sys_fetching, Normal None) /\
  step sys_fetching Submit = sys_fetching.
Proof.
  assert (H1 : trim (questionInput_value (page sys_fetching)) = [] \/
               isLoading (page sys_fetching) = true) by (left; reflexivity).
  assert (H2 : inflight sys_fetching <> []) by discriminate.
  split; [exact H1|]. split; [exact Reachable_sys_fetching|].
  split; [exact H2|]. split.
  - exact (proj1 handleSubmit_ignored (page sys_fetching) H1).
  - exact (proj2 (proj2 (proj2 (proj2 handleSubmit_ignored)
                                 sys_fetching Reachable_sys_fetching H2))).
Defined.

(** C4. An input that does not trim to nothing, with no call pending:
    when [handleSubmit] is suspended at [fetch], so before any response,
    exactly one user message has been appended (class
    [message message-user], label [You], the escaped question in its
    content block), followed by the typing indicator; the welcome
    placeholder, if any, is hidden; the input field is empty; the loading
    state is on (flag up, button disabled, spinner shown, icon hidden,
    label changed); the request carrying the question has left. *)
Theorem handleSubmit_accepted (s : State) :
  trim (questionInput_value s) <> [] ->
  isLoading s = false ->
  let q := trim (questionInput_value s) in
  exists s',
    handleSubmit s = (s', Normal (Some (AwaitFetch q))) /\
    chatMessages s' =
      chatMessages s ++ [userMessage (escapeHtml_string q); typingIndicator] /\
    count is_userMessage (chatMessages s') =
      S (count is_userMessage (chatMessages s)) /\
    welcomeScreen_display s' =
      option_map (fun _ => lit "none") (welcomeScreen_display s) /\
    questionInput_value s' = [] /\
    (isLoading s' = true /\ submitBtn_disabled s' = true /\
     spinner_hidden s' = false /\ btnIcon_hidden s' = true /\
     btnText_textContent s' = lit "Sending...") /\
    network s' = network s ++ [request q] /\
    conversationHistory s' = conversationHistory s /\
    toastContainer s' = toastContainer s /\
    (exists e,
        chatMessages s' = chatMessages s ++ [e; typingIndicator] /\
        shows_message (lit "user") (lit "You") (Spec.escape q) e).
Proof.
  intros Hq Hl. cbv zeta. exists (entered s).
  split; [apply handleSubmit_accept; assumption|].
  cbn [entered chatMessages welcomeScreen_display questionInput_value isLoading
       submitBtn_disabled spinner_hidden btnIcon_hidden btnText_textContent
       network conversationHistory toastContainer].
  split; [reflexivity|]. split; [rewrite count_app; cbn; lia|].
  do 2 (split; [reflexivity|]). split; [repeat split|].
  do 3 (split; [reflexivity|]).
  exists (userMessage (escapeHtml_string (trim (questionInput_value s)))).
  split; [reflexivity|]. rewrite <- escapeHtml_string_escape.
  apply userMessage_shows.
Qed.

Lemma handleSubmit_accepted_witness :
  trim (questionInput_value page0) <> [] /\
  isLoading page0 = false /\
  exists s',
    handleSubmit page0 = (s', Normal (Some (AwaitFetch (lit "hello")))) /\
    chatMessages s' = [userMessage (lit "hello"); typingIndicator] /\
    exists e,
      chatMessages s' = [e; typingIndicator] /\
      shows_message (lit "user") (lit "You") (lit "hello") e.
Proof.
  assert (H1 : trim (questionInput_value page0) <> []) by discriminate.
  split; [exact H1|]. split; [reflexivity|].
  destruct (handleSubmit_accepted page0 H1 eq_refl)
    as (s' & A & B & _ & _ & _ & _ & _ & _ & _ & G).
  exists s'. split; [exact A|]. split; [exact B | exact G].
Defined.

(** C5. In any state that the event loop reaches from a fresh page,
    whatever way a submission settles (success, failure status, a
    body that cannot be used, a rejected [fetch], an unparsable body), the
    typing indicator is gone, the loading state is cleared (flag down,
    button enabled, spinner hidden, icon shown, label restored), no call is
    left suspended, and the next non-empty input is accepted. *)
Theorem settlement_restores_idle (sys : Sys) (ev : Event) :
  Reachable sys ->
  settles sys ev = true ->
  let sys' := step sys ev in
  existsb is_typingIndicator (chatMessages (page sys')) = false /\
  (isLoading (page sys') = false /\ submitBtn_disabled (page sys') = false /\
   spinner_hidden (page sys') = true /\ btnIcon_hidden (page sys') = false /\
   btnText_textContent (page sys') = lit "Send") /\
  inflight sys' = [] /\
  (forall text h, trim text <> [] ->
     inflight (run sys' [Input text h; Submit]) = [AwaitFetch (trim text)]).
Proof.
  intros HR Hs. cbv zeta.
  assert (G : exists q outcome now,
             step sys ev =
             {| page := exec (handleSubmit_settle q outcome now) (page sys);
                inflight := [] |} /\
             count is_typingIndicator (chatMessages (page sys)) <= 1).
  { destruct ev as [| i [ok|e] | i r now | |]; try discriminate; cbn [settles] in Hs.
    - destruct (nth_error (inflight sys) i) as [[q|q ok]|] eqn:E; try discriminate.
      destruct (Reachable_pending _ _ _ HR E) as (-> & Hi & _ & Hc).
      exists q, (Throw e), 0%Z. split; [|exact Hc].
      apply step_FetchSettled_Throw, Hi.
    - destruct (nth_error (inflight sys) i) as [[q|q ok]|] eqn:E; try discriminate.
      destruct (Reachable_pending _ _ _ HR E) as (-> & Hi & _ & Hc).
      do 3 eexists. split; [|exact Hc]. apply step_JsonSettled, Hi. }
  destruct G as (q & outcome & now & -> & Hc).
  destruct (settle_shape q outcome now (page sys)) as (m & t & h & e & -> & H).
  cbn [page inflight settled chatMessages isLoading submitBtn_disabled
       spinner_hidden btnIcon_hidden btnText_textContent].
  split; [exact (H Hc)|]. split; [repeat split|]. split; [reflexivity|].
  intros text h' Ht. cbn [run fold_left step page inflight].
  rewrite handleSubmit_accept; [reflexivity | exact Ht | reflexivity].
Qed.

Lemma settlement_restores_idle_witness :
  Reachable sys_fetching /\
  settles sys_fetching (FetchSettled 0 (Throw NetworkError)) = true /\
  isLoading (page (step sys_fetching (FetchSettled 0 (Throw NetworkError)))) = false /\
  inflight (step sys_fetching (FetchSettled 0 (Throw NetworkError))) = [].
Proof.
  split; [exact Reachable_sys_fetching|]. split; [reflexivity|].
  destruct (settlement_restores_idle sys_fetching
              (FetchSettled 0 (Throw NetworkError))
              Reachable_sys_fetching eq_refl) as (_ & (A & _) & B & _).
  split; [exact A | exact B].
Defined.

(** C8. [clearChat] on a page with the welcome placeholder: confirmed, it
    empties the message list, shows the placeholder again, empties the
    history and shows the information toast, and touches nothing else;
    declined, it leaves the page exactly as it was. *)
Theorem clearChat_effects (s : State) (d : jsstring) :
  welcomeScreen_display s = Some d ->
  (exists s',
      clearChat true s = (s', Normal tt) /\
      chatMessages s' = [] /\
      welcomeScreen_display s' = Some (lit "flex") /\
      conversationHistory s' = [] /\
      toastContainer s' =
        toastContainer s ++ [toast (lit "info") [8505%N] (lit "Chat cleared")] /\
      isLoading s' = isLoading s /\
      questionInput_value s' = questionInput_value s /\
      network s' = network s) /\
  clearChat false s = (s, Normal tt).
Proof.
  intros W. split; [|reflexivity].
  eexists. split; [apply (clearChat_confirmed s d W)|].
  repeat split.
Qed.

Lemma clearChat_effects_witness :
  welcomeScreen_display page_after_turn = Some (lit "none") /\
  length (chatMessages page_after_turn) = 2 /\
  length (conversationHistory page_after_turn) = 1 /\
  (exists s',
      clearChat true page_after_turn = (s', Normal tt) /\
      chatMessages s' = [] /\ conversationHistory s' = []) /\
  clearChat false page_after_turn = (page_after_turn, Normal tt).
Proof.
  split; [reflexivity|]. split; [reflexivity|]. split; [reflexivity|].
  destruct (clearChat_effects page_after_turn (lit "none") eq_refl)
    as [(s' & A & B & _ & C & _) D].
  split; [exists s'; auto | exact D].
Defined.





(** ** A whole exchange *)

Lemma remove_first_app_absent (p : Element -> bool) (x y : list Element) :
  existsb p x = false -> remove_first p (x ++ y) = x ++ remove_first p y.
Proof.
  induction x as [|a x IH]; [reflexivity|].
  cbn. destruct (p a); cbn; [discriminate|]. intros H. rewrite IH; auto.
Qed.

(** X22. From an idle page without typing indicator, a question that is
    answered adds the user message and the assistant message, in this
    order, and the turn made of the trimmed input and the answer. *)
Lemma answered_question
      (sys : Sys) (data : Value) (a : jsstring) (ok_now : Z) :
  inflight sys = [] ->
  isLoading (page sys) = false ->
  existsb is_typingIndicator (chatMessages (page sys)) = false ->
  trim (questionInput_value (page sys)) <> [] ->
  get_prop data (lit "answer") = Normal (VString a) ->
  let q := trim (questionInput_value (page sys)) in
  let sys' := run sys [Submit; FetchSettled 0 (Normal true);
                       JsonSettled 0 (Normal data) ok_now] in
  chatMessages (page sys') =
    chatMessages (page sys) ++
    [userMessage (escapeHtml_string q); aiMessage (formatText_string a)] /\
  conversationHistory (page sys') =
    conversationHistory (page sys) ++
    [ {| question := q; answer := VString a; timestamp := ok_now |} ] /\
  isLoading (page sys') = false /\
  inflight sys' = [].
Proof.
  intros Hi Hl Ht Hq Ha. cbv zeta. cbn [run fold_left].
  cbn [step]. rewrite (handleSubmit_accept _ Hq Hl), Hi.
  cbn [app inflight page nth_error replace_nth remove_nth].
  unfold exec. rewrite (settle_success _ _ _ ok_now _ Ha).
  cbn [fst page inflight settled entered chatMessages conversationHistory
       isLoading].
  repeat split. unfold without_typing.
  rewrite remove_first_app_absent by assumption.
  rewrite <- app_assoc. reflexivity.
Qed.

Lemma answered_question_witness :
  trim (questionInput_value (page sys0)) <> [] /\
  chatMessages (page (run sys0
      [Submit; FetchSettled 0 (Normal true);
       JsonSettled 0 (Normal (VObject [(lit "answer", VString (lit "a < b"))]))
                   5%Z])) =
    [userMessage (lit "hello"); aiMessage (lit "a &lt; b")].
Proof.
  assert (H : trim (questionInput_value (page sys0)) <> []) by discriminate.
  split; [exact H|].
  exact (proj1 (answered_question sys0
                  (VObject [(lit "answer", VString (lit "a < b"))])
                  (lit "a < b") 5%Z eq_refl eq_refl eq_refl H eq_refl)).
Defined.

(* ================================================================== *)
(** * Further properties of the code *)
(* ================================================================== *)

(** ** More on the text helpers *)

Lemma entity_length (c : char) :
  length (Spec.entity c) = 1 /\ special c = false \/
  1 < length (Spec.entity c) /\ special c = true.
Proof.
  destruct (special c) eqn:E.
  - right. split; [|reflexivity]. apply special_cases in E.
    destruct E as [-> | [-> | [-> | [-> | ->]]]]; cbn; lia.
  - left. rewrite entity_plain by assumption. auto.
Qed.

Lemma escape_length (s : jsstring) :
  length s <= length (Spec.escape s) /\
  (existsb special s = true -> length s < length (Spec.escape s)).
Proof.
  induction s as [|c s [IH1 IH2]]; [split; [reflexivity | discriminate]|].
  rewrite escape_cons, length_app. cbn [length existsb].
  destruct (entity_length c) as [[L E] | [L E]]; rewrite E; cbn [orb].
  - split; [lia|]. intros H. specialize (IH2 H). lia.
  - split; [lia|]. intros _. lia.
Qed.

Lemma escape_plain (s : jsstring) :
  existsb special s = false -> Spec.escape s = s.
Proof.
  induction s as [|c s IH]; [reflexivity|].
  cbn [existsb]. intros H. apply orb_false_iff in H. destruct H as [Hc Hs].
  rewrite escape_cons, entity_plain, IH by assumption. reflexivity.
Qed.

(** X1. [escapeHtml] returns its argument unchanged exactly when the
    string holds none of the five characters it escapes; any other string
    comes out strictly longer. *)
Theorem escapeHtml_unchanged_iff (s : jsstring) :
  (escapeHtml_string s = s <-> existsb special s = false) /\
  (existsb special s = true -> length s < length (escapeHtml_string s)).
Proof.
  rewrite escapeHtml_string_escape.
  destruct (escape_length s) as [L1 L2]. split; [|exact L2]. split.
  - intros H. destruct (existsb special s) eqn:E; [|reflexivity].
    specialize (L2 eq_refl). rewrite H in L2. lia.
  - apply escape_plain.
Qed.

(** X2. Escaping a concatenation is concatenating the escaped parts, so
    text can be escaped piece by piece. *)
Theorem escapeHtml_concat (a b : jsstring) :
  escapeHtml_string (a ++ b) = escapeHtml_string a ++ escapeHtml_string b.
Proof. rewrite !escapeHtml_string_escape. apply escape_app. Qed.

Lemma count_cons {A : Type} (p : A -> bool) (a : A) (l : list A) :
  count p (a :: l) = (if p a then 1 else 0) + count p l.
Proof. unfold count. cbn. destruct (p a); reflexivity. Qed.

Lemma count_none {A : Type} (p q : A -> bool) (l : list A) :
  forallb (fun a => negb (q a)) l = true ->
  (forall a, p a = true -> q a = true) ->
  count p l = 0.
Proof.
  intros H Hpq. induction l as [|a l IH]; [reflexivity|].
  cbn [forallb] in H. apply andb_true_iff in H. destruct H as [Ha Hl].
  rewrite count_cons, IH by assumption.
  destruct (p a) eqn:E; [|reflexivity].
  rewrite (Hpq a E) in Ha. discriminate.
Qed.

Lemma markup_count_escape (c : char) (s : jsstring) :
  Spec.markup c = true -> count (N.eqb c) (Spec.escape s) = 0.
Proof.
  intros Hc. apply (count_none (N.eqb c) Spec.markup).
  - apply escape_no_markup.
  - intros a E. apply N.eqb_eq in E. subst a. exact Hc.
Qed.

Lemma markup_count_entity (c d : char) :
  Spec.markup c = true -> count (N.eqb c) (Spec.entity d) = 0.
Proof.
  intros Hc. apply (count_none (N.eqb c) Spec.markup).
  - apply entity_no_markup.
  - intros a E. apply N.eqb_eq in E. subst a. exact Hc.
Qed.

Lemma count_anchor (c : char) (u : jsstring) :
  count (N.eqb c) (Spec.anchor u) =
  count (N.eqb c) (Spec.anchor []) + 2 * count (N.eqb c) u.
Proof.
  unfold Spec.anchor. rewrite !count_app.
  change (count (N.eqb c) []) with 0. lia.
Qed.

Lemma formatText_count_general
      (text : jsstring) (ts : list Spec.token) (c : char) :
  Spec.tokens text ts ->
  Spec.markup c = true ->
  count (N.eqb c) (formatText_string text) =
  count Spec.is_url ts * count (N.eqb c) (Spec.anchor []) +
  count is_break ts * count (N.eqb c) br.
Proof.
  intros Hts Hc. rewrite (formatText_tokens text ts Hts). clear Hts.
  induction ts as [|t ts IH]; [reflexivity|].
  cbn [flat_map]. rewrite count_app, IH, !count_cons.
  destruct t as [u|d]; cbn [Spec.render Spec.is_url is_break].
  - rewrite count_anchor, markup_count_escape by assumption. lia.
  - unfold br. destruct (N.eqb d LF); [lia|].
    rewrite markup_count_entity by assumption. lia.
Qed.

(** X3. The markup characters of what [formatText] returns all belong to
    the tags it inserts, none comes from the text: with [n] URLs and [m]
    line feeds in the text there are [2n + m] opening and as many closing
    angle brackets, [6n] double quotes and no apostrophe. *)
Theorem formatText_markup_count (text : jsstring) (ts : list Spec.token) :
  Spec.tokens text ts ->
  let out := formatText_string text in
  let n := count Spec.is_url ts in
  let m := count is_break ts in
  count (N.eqb (chr "<")) out = 2 * n + m /\
  count (N.eqb (chr ">")) out = 2 * n + m /\
  count (N.eqb dquote) out = 6 * n /\
  count (N.eqb squote) out = 0.
Proof.
  intros Hts. cbv zeta.
  rewrite !(formatText_count_general text ts _ Hts) by reflexivity.
  change (count (N.eqb (chr "<")) (Spec.anchor [])) with 2.
  change (count (N.eqb (chr ">")) (Spec.anchor [])) with 2.
  change (count (N.eqb dquote) (Spec.anchor [])) with 6.
  change (count (N.eqb squote) (Spec.anchor [])) with 0.
  change (count (N.eqb (chr "<")) br) with 1.
  change (count (N.eqb (chr ">")) br) with 1.
  change (count (N.eqb dquote) br) with 0.
  change (count (N.eqb squote) br) with 0.
  lia.
Qed.

Lemma formatText_markup_count_witness :
  Spec.tokens (lit "<b> http://a.b/?q=<i>")
    [ Spec.TChar (chr "<"); Spec.TChar (chr "b"); Spec.TChar (chr ">");
      Spec.TChar (chr " "); Spec.TUrl (lit "http://a.b/?q=<i>") ] /\
  count (N.eqb (chr "<")) (formatText_string (lit "<b> http://a.b/?q=<i>")) = 2.
Proof.
  assert (T : Spec.tokens (lit "<b> http://a.b/?q=<i>")
    [ Spec.TChar (chr "<"); Spec.TChar (chr "b"); Spec.TChar (chr ">");
      Spec.TChar (chr " "); Spec.TUrl (lit "http://a.b/?q=<i>") ]).
  { repeat (first [ apply Spec.tokens_nil
                  | apply Spec.tokens_char; [reflexivity|]
                  | eapply Spec.tokens_url; [reflexivity|] ]). }
  split; [exact T|].
  exact (proj1 (formatText_markup_count _ _ T)).
Defined.

(** ** The DOM writers on a value that is not a string *)

(** X4. Given anything but a string, each of the four writers throws a
    [TypeError] before it touches the page: no message or toast is half
    added. *)
Theorem writers_reject_non_strings (v : Value) (type : jsstring) (s : State) :
  (forall a, v <> VString a) ->
  addUserMessage v s = (s, Throw TypeError) /\
  addAIMessage v s = (s, Throw TypeError) /\
  addErrorMessage v s = (s, Throw TypeError) /\
  showToast v type s = (s, Throw TypeError).
Proof.
  intros H.
  unfold addUserMessage, addAIMessage, addErrorMessage, showToast, bind, eval.
  rewrite formatText_not_string, escapeHtml_not_string by assumption.
  repeat split.
Qed.

Lemma writers_reject_non_strings_witness :
  (forall a, VNull <> VString a) /\
  addAIMessage VNull page0 = (page0, Throw TypeError).
Proof.
  assert (H : forall a, VNull <> VString a) by discriminate.
  split; [exact H|].
  exact (proj1 (proj2 (writers_reject_non_strings VNull [] page0 H))).
Defined.

(** ** What one turn of the event loop does to the page *)

Lemma input_exec (text : jsstring) (h : N) (s : State) :
  exec (input text h) s =
  set_questionInput_height (Px (N.min h 150))
    (set_questionInput_height Auto (set_questionInput_value text s)).
Proof. reflexivity. Qed.

(** The page after a turn: untouched, or entered by an accepted call, or
    settled, or edited, or cleared. *)
Lemma step_page_cases (sys : Sys) (ev : Event) :
  let s := page sys in
  let s' := page (step sys ev) in
  s' = s \/
  (ev = Submit /\ trim (questionInput_value s) <> [] /\ isLoading s = false /\
   s' = entered s) \/
  (exists q outcome now, s' = exec (handleSubmit_settle q outcome now) s) \/
  (exists text h, ev = Input text h /\ s' = exec (input text h) s) \/
  (ev = ClearChat true /\ s' = exec (clearChat true) s).
Proof.
  cbv zeta. destruct ev as [| i r | i r now | text h | confirmed]; cbn [step].
  - destruct (list_eq_dec N.eq_dec (trim (questionInput_value (page sys))) [])
      as [E|E].
    + rewrite handleSubmit_noop by auto. auto.
    + destruct (isLoading (page sys)) eqn:L.
      * rewrite handleSubmit_noop by auto. auto.
      * rewrite handleSubmit_accept by assumption. right; left.
        repeat split; try assumption.
  - destruct (nth_error (inflight sys) i) as [[q|q ok]|]; auto.
    destruct r as [ok|e]; cbn [page]; auto. right; right; left. eauto.
  - destruct (nth_error (inflight sys) i) as [[q|q ok]|]; cbn [page]; auto.
    right; right; left. eauto.
  - cbn [page]. right; right; right; left. eauto.
  - cbn [page]. destruct confirmed; auto. right; right; right; right. auto.
Qed.

(** The history after a settlement: as it was, or with the one turn of
    the answered question added. *)
Lemma settle_history (q : jsstring) (outcome : Completion (bool * Value))
      (now : Z) (s : State) :
  exists msgs toasts errors,
    exec (handleSubmit_settle q outcome now) s =
      settled s msgs toasts (conversationHistory s) errors \/
    exists a,
      exec (handleSubmit_settle q outcome now) s =
      settled s msgs toasts
        (conversationHistory s ++
         [ {| question := q; answer := VString a; timestamp := now |} ])
        errors.
Proof.
  unfold exec. destruct outcome as [[[|] data]|e].
  - destruct (get_prop data (lit "answer")) as [[]|] eqn:E;
      try (rewrite settle_no_answer by (rewrite E; congruence);
           do 3 eexists; left; reflexivity).
    rewrite (settle_success q _ _ now s E). do 3 eexists. right.
    eexists. reflexivity.
  - destruct (error_field_cases data) as [(e & He & Hne) | [(v & Hv & Ht) | H]].
    + rewrite (settle_failure_text q _ _ now s He Hne).
      do 3 eexists; left; reflexivity.
    + rewrite (settle_failure_fallback q _ _ now s Hv Ht).
      do 3 eexists; left; reflexivity.
    + rewrite settle_failure_caught by assumption.
      do 3 eexists; left; reflexivity.
  - rewrite settle_rejected. do 3 eexists; left; reflexivity.
Qed.

Lemma clearChat_exec (s : State) :
  exec (clearChat true) s =
    set_toastContainer (toastContainer s ++ [info_toast (lit "Chat cleared")])
      (set_conversationHistory []
         (set_welcomeScreen_display (Some (lit "flex"))
            (set_chatMessages [] s))) \/
  exec (clearChat true) s = set_chatMessages [] s.
Proof.
  unfold exec. destruct (welcomeScreen_display s) as [d|] eqn:W.
  - rewrite (clearChat_confirmed _ _ W). auto.
  - rewrite (clearChat_no_placeholder _ W). auto.
Qed.

Lemma run_invariant (P : Sys -> Prop) :
  (forall sys ev, P sys -> P (step sys ev)) ->
  forall evs sys, P sys -> P (run sys evs).
Proof.
  intros Hstep. induction evs as [|ev evs IH]; intros sys H; [exact H|].
  cbn. apply IH, Hstep, H.
Qed.

(** ** Invariants of the page *)

(** X5. The submit button, the spinner, the icon and the label always
    show the loading flag: once they agree with it they do so after every
    run of events. *)
Theorem controls_follow_loading (sys : Sys) (evs : list Event) :
  controls_mirror (page sys) -> controls_mirror (page (run sys evs)).
Proof.
  revert sys. apply (run_invariant (fun sys => controls_mirror (page sys))).
  intros sys ev H.
  destruct (step_page_cases sys ev)
    as [-> | [(_ & _ & _ & ->) | [(q & o & now & ->) | [(t & h & _ & ->) | [_ ->]]]]].
  - exact H.
  - repeat split.
  - destruct (settle_shape q o now (page sys)) as (m & ts & hi & e & -> & _).
    repeat split.
  - rewrite input_exec. exact H.
  - destruct (clearChat_exec (page sys)) as [-> | ->]; exact H.
Qed.

Lemma controls_follow_loading_witness :
  controls_mirror (page sys0) /\
  controls_mirror (page (run sys0 [Submit; FetchSettled 0 (Throw NetworkError)])).
Proof.
  assert (H : controls_mirror (page sys0)) by (repeat split).
  split; [exact H|].
  exact (controls_follow_loading sys0 _ H).
Defined.

(** X6. The history holds string answers only: a turn is recorded only
    after its answer has been formatted, which a string alone survives. *)
Theorem history_answers_are_strings (sys : Sys) (evs : list Event) :
  string_answers (conversationHistory (page sys)) ->
  string_answers (conversationHistory (page (run sys evs))).
Proof.
  revert sys.
  apply (run_invariant
           (fun sys => string_answers (conversationHistory (page sys)))).
  intros sys ev H.
  destruct (step_page_cases sys ev)
    as [-> | [(_ & _ & _ & ->) | [(q & o & now & ->) | [(t & h & _ & ->) | [_ ->]]]]].
  - exact H.
  - exact H.
  - destruct (settle_history q o now (page sys))
      as (m & ts & e & [-> | [a ->]]); cbn [settled conversationHistory].
    + exact H.
    + apply Forall_app. split; [exact H|].
      constructor; [|constructor]. exists a. reflexivity.
  - rewrite input_exec. exact H.
  - destruct (clearChat_exec (page sys)) as [-> | ->];
      [constructor | exact H].
Qed.

Lemma history_answers_are_strings_witness :
  string_answers (conversationHistory (page sys0)) /\
  string_answers
    (conversationHistory
       (page (run sys0 [Submit; FetchSettled 0 (Normal true);
                        JsonSettled 0 (Normal (VObject [(lit "answer", VNumber 1)]))
                                    0%Z]))).
Proof.
  assert (H : string_answers (conversationHistory (page sys0))) by constructor.
  split; [exact H|].
  exact (history_answers_are_strings sys0 _ H).
Defined.

(** ** More on [trim] *)

Lemma trimStart_suffix (s : jsstring) : exists p, s = p ++ trimStart s.
Proof.
  induction s as [|c s [p IH]]; [exists []; reflexivity|].
  cbn [trimStart]. destruct (isWhiteSpace c).
  - exists (c :: p). cbn. congruence.
  - exists []. reflexivity.
Qed.

Lemma trimStart_fixed (s : jsstring) :
  match s with [] => True | c :: _ => isWhiteSpace c = false end ->
  trimStart s = s.
Proof. destruct s as [|c s]; [reflexivity|]. cbn. intros ->. reflexivity. Qed.

Lemma trimStart_starts (s : jsstring) :
  match trimStart s with [] => True | c :: _ => isWhiteSpace c = false end.
Proof.
  destruct (trimStart s) as [|c t] eqn:E; [exact I|].
  exact (trimStart_head _ _ _ E).
Qed.

(** [trim] is idempotent, and what it returns neither starts nor ends
    with whitespace. *)
Lemma trim_trimmed (s : jsstring) :
  trim (trim s) = trim s /\
  match trim s with [] => True | c :: _ => isWhiteSpace c = false end /\
  match rev (trim s) with [] => True | c :: _ => isWhiteSpace c = false end.
Proof.
  unfold trim, trimEnd.
  set (t := trimStart s). set (u := trimStart (rev t)).
  assert (Hu : match u with [] => True | c :: _ => isWhiteSpace c = false end)
    by apply trimStart_starts.
  assert (Hx : match rev u with [] => True | c :: _ => isWhiteSpace c = false end).
  { destruct (trimStart_suffix (rev t)) as [p Hp]. fold u in Hp.
    apply (f_equal (@rev _)) in Hp. rewrite rev_involutive, rev_app_distr in Hp.
    pose proof (trimStart_starts s) as Ht. fold t in Ht. rewrite Hp in Ht.
    destruct (rev u) as [|c x]; [exact I | exact Ht]. }
  rewrite (trimStart_fixed (rev u) Hx), rev_involutive.
  rewrite (trimStart_fixed u Hu). auto.
Qed.

(** ** More invariants of the page *)

(** X7. Every request that leaves is a [POST] to [/api/ask] with the JSON
    content type, carrying a question that is not empty and has no
    whitespace at either end: a log of such requests stays one. *)
Theorem requests_are_sound (sys : Sys) (evs : list Event) :
  Forall sound_request (network (page sys)) ->
  Forall sound_request (network (page (run sys evs))).
Proof.
  revert sys.
  apply (run_invariant (fun sys => Forall sound_request (network (page sys)))).
  intros sys ev H.
  destruct (step_page_cases sys ev)
    as [-> | [(_ & Hq & _ & ->) | [(q & o & now & ->) | [(t & h & _ & ->) | [_ ->]]]]].
  - exact H.
  - cbn [entered network]. apply Forall_app. split; [exact H|].
    constructor; [|constructor]. eexists. split; [reflexivity|].
    split; [exact Hq | apply trim_trimmed].
  - destruct (settle_shape q o now (page sys)) as (m & ts & hi & e & -> & _).
    exact H.
  - rewrite input_exec. exact H.
  - destruct (clearChat_exec (page sys)) as [-> | ->]; exact H.
Qed.

Lemma requests_are_sound_witness :
  Forall sound_request (network (page sys0)) /\
  Forall sound_request (network (page (run sys0 [Submit]))) /\
  length (network (page (run sys0 [Submit]))) = 1.
Proof.
  assert (H : Forall sound_request (network (page sys0))) by constructor.
  split; [exact H|]. split; [|reflexivity].
  exact (requests_are_sound sys0 [Submit] H).
Defined.

(** X8. A request leaves exactly when a submission is accepted: any
    other turn of the event loop keeps the log of requests as it is, and an
    accepted submission adds the one request for the trimmed input. *)
Theorem request_iff_accepted (sys : Sys) (ev : Event) :
  let s := page sys in
  let accepted :=
    ev = Submit /\ trim (questionInput_value s) <> [] /\ isLoading s = false in
  (accepted ->
   network (page (step sys ev)) =
     network s ++ [request (trim (questionInput_value s))]) /\
  (~ accepted -> network (page (step sys ev)) = network s).
Proof.
  cbv zeta. split.
  - intros (-> & Hq & Hl). cbn [step].
    rewrite handleSubmit_accept by assumption. reflexivity.
  - intros Hn.
    destruct (step_page_cases sys ev)
      as [-> | [(A & B & C & _) | [(q & o & now & ->) | [(t & h & _ & ->) | [_ ->]]]]].
    + reflexivity.
    + exfalso. apply Hn. auto.
    + destruct (settle_shape q o now (page sys)) as (m & ts & hi & e & -> & _).
      reflexivity.
    + rewrite input_exec. reflexivity.
    + destruct (clearChat_exec (page sys)) as [-> | ->]; reflexivity.
Qed.

(** X9. The history is only ever extended by one turn or emptied by a
    confirmed clearing: no turn is altered, reordered or dropped
    otherwise. *)
Theorem history_append_only (sys : Sys) (ev : Event) :
  let h := conversationHistory (page sys) in
  let h' := conversationHistory (page (step sys ev)) in
  h' = h \/
  (exists t, h' = h ++ [t]) \/
  (ev = ClearChat true /\ h' = []).
Proof.
  cbv zeta.
  destruct (step_page_cases sys ev)
    as [-> | [(_ & _ & _ & ->) | [(q & o & now & ->) | [(t & h & _ & ->) | [E ->]]]]].
  - auto.
  - auto.
  - destruct (settle_history q o now (page sys))
      as (m & ts & e & [-> | [a ->]]); cbn [settled conversationHistory]; eauto.
  - rewrite input_exec. auto.
  - destruct (clearChat_exec (page sys)) as [-> | ->]; auto.
Qed.

(** X10. A settlement, whatever its outcome, leaves the input field, its
    height, the welcome placeholder and the log of requests alone: the
    question of a failed submission is not put back into the field, and the
    placeholder does not come back. *)
Theorem settlement_frame
        (q : jsstring) (outcome : Completion (bool * Value)) (now : Z) (s : State) :
  let s' := exec (handleSubmit_settle q outcome now) s in
  questionInput_value s' = questionInput_value s /\
  questionInput_height s' = questionInput_height s /\
  welcomeScreen_display s' = welcomeScreen_display s /\
  network s' = network s.
Proof.
  cbv zeta.
  destruct (settle_shape q outcome now s) as (m & ts & hi & e & -> & _).
  repeat split.
Qed.

(** X11. Clearing the chat while a question is pending does not cancel
    it: when the answer arrives it is shown alone in the emptied list, next
    to the restored welcome placeholder, and its turn is the only one of the
    history. *)
Theorem clear_while_pending
        (sys : Sys) (q a d : jsstring) (data : Value) (now : Z) :
  inflight sys = [AwaitJson q true] ->
  welcomeScreen_display (page sys) = Some d ->
  get_prop data (lit "answer") = Normal (VString a) ->
  let sys' := run sys [ClearChat true; JsonSettled 0 (Normal data) now] in
  chatMessages (page sys') = [aiMessage (formatText_string a)] /\
  conversationHistory (page sys') =
    [ {| question := q; answer := VString a; timestamp := now |} ] /\
  welcomeScreen_display (page sys') = Some (lit "flex") /\
  isLoading (page sys') = false /\
  inflight sys' = [].
Proof.
  intros Hi W Ha. cbv zeta. cbn [run fold_left].
  cbn [step inflight page]. rewrite Hi. cbn [nth_error remove_nth].
  unfold exec. rewrite (clearChat_confirmed _ _ W). cbn [fst].
  rewrite (settle_success q _ _ now _ Ha). repeat split.
Qed.

Lemma clear_while_pending_witness :
  inflight (sys_parsing true) = [AwaitJson (lit "hello") true] /\
  welcomeScreen_display (page (sys_parsing true)) = Some (lit "none") /\
  chatMessages
    (page (run (sys_parsing true)
             [ClearChat true;
              JsonSettled 0 (Normal (VObject [(lit "answer", VString (lit "hi"))]))
                          0%Z])) =
  [aiMessage (lit "hi")].
Proof.
  split; [reflexivity|]. split; [reflexivity|].
  exact (proj1
    (clear_while_pending (sys_parsing true) (lit "hello") (lit "hi") (lit "none")
       (VObject [(lit "answer", VString (lit "hi"))]) 0%Z
       eq_refl eq_refl eq_refl)).
Defined.

(** X12. On a page without the welcome placeholder a confirmed clearing
    stops half way: the message list is emptied, then a [TypeError] is
    thrown, so the history keeps its turns and no toast is shown, while
    [handleSubmit] works on such a page. *)
Theorem clearChat_without_placeholder (s : State) :
  welcomeScreen_display s = None ->
  (exists s',
      clearChat true s = (s', Throw TypeError) /\
      chatMessages s' = [] /\
      conversationHistory s' = conversationHistory s /\
      toastContainer s' = toastContainer s) /\
  (trim (questionInput_value s) <> [] -> isLoading s = false ->
   exists s',
     handleSubmit s =
       (s', Normal (Some (AwaitFetch (trim (questionInput_value s))))) /\
     welcomeScreen_display s' = None).
Proof.
  intros W. split.
  - eexists. split; [apply (clearChat_no_placeholder s W)|]. repeat split.
  - intros Hq Hl. eexists. split; [apply handleSubmit_accept; assumption|].
    cbn [entered welcomeScreen_display]. rewrite W. reflexivity.
Qed.

Lemma clearChat_without_placeholder_witness :
  welcomeScreen_display (set_welcomeScreen_display None page_after_turn) = None /\
  exists s',
    clearChat true (set_welcomeScreen_display None page_after_turn) =
      (s', Throw TypeError) /\
    chatMessages s' = [] /\
    length (conversationHistory s') = 1.
Proof.
  split; [reflexivity|].
  destruct (clearChat_without_placeholder
              (set_welcomeScreen_display None page_after_turn) eq_refl)
    as [(s' & A & B & C & _) _].
  exists s'. split; [exact A|]. split; [exact B|]. rewrite C. reflexivity.
Defined.

Lemma Inv_facts (sys : Sys) :
  Inv sys ->
  (isLoading (page sys) = true <-> inflight sys <> []) /\
  length (inflight sys) <= 1 /\
  count is_typingIndicator (chatMessages (page sys)) <= 1 /\
  (isLoading (page sys) = false ->
   count is_typingIndicator (chatMessages (page sys)) = 0).
Proof.
  unfold Inv. intros HR.
  destruct (inflight sys) as [|p [|p' l]]; [| |contradiction];
    destruct HR as [Hl Ht]; rewrite Hl.
  - apply count_zero_existsb in Ht. rewrite Ht.
    repeat split; try (cbn; lia); try congruence.
  - repeat split; try (cbn; lia); try congruence; try discriminate.
Qed.

(** X13. In every state reached from a fresh page the loading flag is up
    exactly while a call is suspended, at most one call is, and a typing
    indicator is shown only while the flag is up, once at most. *)
Theorem loading_iff_pending (sys : Sys) :
  Reachable sys ->
  (isLoading (page sys) = true <-> inflight sys <> []) /\
  length (inflight sys) <= 1 /\
  count is_typingIndicator (chatMessages (page sys)) <= 1 /\
  (isLoading (page sys) = false ->
   count is_typingIndicator (chatMessages (page sys)) = 0).
Proof. intros HR. apply Inv_facts, Reachable_Inv, HR. Qed.

Lemma loading_iff_pending_witness :
  Reachable sys_fetching /\
  isLoading (page sys_fetching) = true /\
  count is_typingIndicator (chatMessages (page sys_fetching)) <= 1.
Proof.
  split; [exact Reachable_sys_fetching|].
  destruct (loading_iff_pending sys_fetching Reachable_sys_fetching)
    as (A & _ & B & _).
  split; [apply A; discriminate | exact B].
Defined.

(** X14. The script never sets the height of the text area above 150
    pixels: a height that is [auto] or at most 150 stays so after every run
    of events. *)
Theorem height_stays_capped (sys : Sys) (evs : list Event) :
  height_capped (questionInput_height (page sys)) ->
  height_capped (questionInput_height (page (run sys evs))).
Proof.
  revert sys.
  apply (run_invariant
           (fun sys => height_capped (questionInput_height (page sys)))).
  intros sys ev H.
  destruct (step_page_cases sys ev)
    as [-> | [(_ & _ & _ & ->) | [(q & o & now & ->) | [(t & h & _ & ->) | [_ ->]]]]].
  - exact H.
  - exact I.
  - destruct (settle_shape q o now (page sys)) as (m & ts & hi & e & -> & _).
    exact H.
  - rewrite input_exec. cbn. apply N.le_min_r.
  - destruct (clearChat_exec (page sys)) as [-> | ->]; exact H.
Qed.

Lemma height_stays_capped_witness :
  height_capped (questionInput_height (page sys0)) /\
  height_capped
    (questionInput_height (page (run sys0 [Input (lit "a") 400%N]))).
Proof.
  assert (H : height_capped (questionInput_height (page sys0))) by exact I.
  split; [exact H|].
  exact (height_stays_capped sys0 [Input (lit "a") 400%N] H).
Defined.

(** ** Navigation *)

Lemma showToast_string (m type : jsstring) (s : State) :
  showToast (VString m) type s =
  (with_toasts [toast type (toast_icon type) (escapeHtml_string m)] s, Normal tt).
Proof. reflexivity. Qed.

Lemma with_no_toasts (s : State) : with_toasts [] s = s.
Proof. destruct s. unfold with_toasts, set_toastContainer. cbn. rewrite app_nil_r. reflexivity. Qed.

Lemma view_frame_refl (v : Ui.View) : view_frame v v.
Proof. split; [reflexivity|]. exists []. rewrite with_no_toasts. auto. Qed.

Lemma showChat_frame (v : Ui.View) : view_frame v (fst (Ui.showChat v)).
Proof.
  unfold Ui.showChat, Ui.bindV, Ui.getV.
  destruct (Ui.chatContainer_display v) eqn:E; cbn.
  - split; [reflexivity|]. eexists. split; [|reflexivity]. cbn. lia.
  - apply view_frame_refl.
Qed.

Lemma showHistory_frame (toString : Value -> jsstring) (v : Ui.View) :
  view_frame v (fst (Ui.showHistory toString v)).
Proof.
  unfold Ui.showHistory, Ui.bindV, Ui.getV.
  destruct (Nat.eqb (length (conversationHistory (Ui.chat v))) 0); cbn.
  - split; [reflexivity|]. eexists. split; [|reflexivity]. cbn. lia.
  - split; [reflexivity|]. eexists. split; [|reflexivity]. cbn. lia.
Qed.

Lemma showSettings_frame (v : Ui.View) : view_frame v (fst (Ui.showSettings v)).
Proof.
  cbn. split; [reflexivity|]. eexists. split; [|reflexivity]. cbn. lia.
Qed.

(** The view after [handleNavigation]: unchanged when there is no such
    item, and otherwise the items re-marked and then a view handler run. *)
Lemma handleNavigation_cases
      (toString : Value -> jsstring) (i : nat) (v : Ui.View) :
  let v' := fst (Ui.handleNavigation toString i v) in
  (nth_error (Ui.navItems v) i = None /\ v' = v) \/
  (i < length (Ui.navItems v) /\
   view_frame
     (Ui.set_navItems (Ui.activate i (map Ui.deactivate (Ui.navItems v))) v) v').
Proof.
  cbv zeta. unfold Ui.handleNavigation, Ui.getV. unfold Ui.bindV at 1.
  cbv beta iota.
  destruct (nth_error (Ui.navItems v) i) as [target|] eqn:E; [|auto].
  right. split; [apply nth_error_Some; congruence|].
  unfold Ui.bindV at 1 2. unfold Ui.modifyV. cbv beta iota. rewrite E.
  change (view_frame
            (Ui.set_navItems (Ui.activate i (map Ui.deactivate (Ui.navItems v))) v)
            (fst (match Ui.data_view target with
                  | Some name =>
                      if JsString.eqb name (lit "chat") then Ui.showChat
                      else if JsString.eqb name (lit "history")
                           then Ui.showHistory toString
                      else if JsString.eqb name (lit "settings")
                           then Ui.showSettings
                      else Ui.retV tt
                  | None => Ui.retV tt
                  end
                    (Ui.set_navItems
                       (Ui.activate i (map Ui.deactivate (Ui.navItems v))) v)))).
  generalize (Ui.set_navItems
                (Ui.activate i (map Ui.deactivate (Ui.navItems v))) v).
  intros w.
  destruct (Ui.data_view target) as [name|]; [|apply view_frame_refl].
  destruct (JsString.eqb name (lit "chat")); [apply showChat_frame|].
  destruct (JsString.eqb name (lit "history")); [apply showHistory_frame|].
  destruct (JsString.eqb name (lit "settings")); [apply showSettings_frame|].
  apply view_frame_refl.
Qed.

Lemma count_deactivated (l : list Ui.NavItem) :
  count Ui.active (map Ui.deactivate l) = 0.
Proof. induction l as [|x l IH]; [reflexivity|]. rewrite map_cons, count_cons, IH. reflexivity. Qed.

Lemma activate_one (i : nat) (l : list Ui.NavItem) :
  i < length l ->
  count Ui.active (Ui.activate i (map Ui.deactivate l)) = 1 /\
  (exists x, nth_error (Ui.activate i (map Ui.deactivate l)) i = Some x /\
             Ui.active x = true) /\
  map Ui.data_view (Ui.activate i (map Ui.deactivate l)) = map Ui.data_view l.
Proof.
  revert i. induction l as [|x l IH]; intros i Hi; [cbn in Hi; lia|].
  destruct i as [|i]; cbn [map Ui.activate].
  - rewrite count_cons, count_deactivated. cbn.
    split; [reflexivity|]. split; [eauto|].
    f_equal. rewrite map_map. reflexivity.
  - destruct (IH i) as (A & B & C); [cbn in Hi; lia|].
    rewrite count_cons, A. cbn. split; [reflexivity|]. split; [exact B|].
    f_equal. exact C.
Qed.

(** X15. After a click on a navigation item exactly one item is marked
    active, the one clicked, whatever the view it names and even when
    [showChat] throws for want of a chat container; the [data-view]
    attributes are untouched. *)
Theorem navigation_marks_one
        (toString : Value -> jsstring) (i : nat) (v : Ui.View) :
  i < length (Ui.navItems v) ->
  let v' := fst (Ui.handleNavigation toString i v) in
  count Ui.active (Ui.navItems v') = 1 /\
  (exists x, nth_error (Ui.navItems v') i = Some x /\ Ui.active x = true) /\
  map Ui.data_view (Ui.navItems v') = map Ui.data_view (Ui.navItems v).
Proof.
  intros Hi. cbv zeta.
  destruct (handleNavigation_cases toString i v) as [[E _] | [_ [N _]]].
  - apply nth_error_None in E. lia.
  - rewrite N. cbn [Ui.navItems Ui.set_navItems]. apply activate_one, Hi.
Qed.

(** X16. Navigation does not touch the chat: whatever item is clicked,
    the messages, the history, the loading flag, the input field, the
    welcome placeholder and the log of requests are as before, and one
    toast at most has been added. *)
Theorem navigation_keeps_chat
        (toString : Value -> jsstring) (i : nat) (v : Ui.View) :
  let s := Ui.chat v in
  let s' := Ui.chat (fst (Ui.handleNavigation toString i v)) in
  chatMessages s' = chatMessages s /\
  conversationHistory s' = conversationHistory s /\
  isLoading s' = isLoading s /\
  questionInput_value s' = questionInput_value s /\
  welcomeScreen_display s' = welcomeScreen_display s /\
  network s' = network s /\
  exists ts, length ts <= 1 /\ toastContainer s' = toastContainer s ++ ts.
Proof.
  cbv zeta.
  destruct (handleNavigation_cases toString i v) as [[_ ->] | [_ [_ (ts & L & ->)]]].
  - repeat split. exists []. rewrite app_nil_r. auto.
  - cbn [Ui.chat Ui.set_navItems]. repeat split. exists ts. auto.
Qed.

Lemma navigation_marks_one_witness :
  0 < length (Ui.navItems view0) /\
  snd (Ui.handleNavigation (fun _ => []) 0 view0) = Throw TypeError /\
  count Ui.active (Ui.navItems (fst (Ui.handleNavigation (fun _ => []) 0 view0))) = 1.
Proof.
  assert (H : 0 < length (Ui.navItems view0)) by (cbn; lia).
  split; [exact H|]. split; [reflexivity|].
  exact (proj1 (navigation_marks_one (fun _ => []) 0 view0 H)).
Defined.

(** ** The history view *)

Lemma digits_plain (d : Decimal.uint) : existsb special (Ui.digits d) = false.
Proof. induction d; cbn [Ui.digits existsb]; rewrite ?IHd; reflexivity. Qed.

Lemma digits_injective (d d' : Decimal.uint) :
  Ui.digits d = Ui.digits d' -> d = d'.
Proof.
  revert d'. induction d; destruct d'; cbn [Ui.digits]; intros H;
    try reflexivity; try discriminate H;
    injection H as H; f_equal; auto.
Qed.

Lemma decimal_injective (n m : nat) : Ui.decimal n = Ui.decimal m -> n = m.
Proof.
  unfold Ui.decimal. intros H. apply digits_injective in H.
  apply Unsigned.to_uint_inj. exact H.
Qed.

Lemma count_text_plain (n : nat) :
  escapeHtml_string (Ui.decimal n ++ lit " messages in history") =
  Ui.decimal n ++ lit " messages in history".
Proof.
  rewrite escapeHtml_string_escape. apply escape_plain.
  rewrite existsb_app. unfold Ui.decimal. rewrite digits_plain. reflexivity.
Qed.

(** X17. The history view reports the number of turns: with an empty
    history it only shows the toast [No chat history]; otherwise it prints
    one console line and shows a toast that starts with the length of the
    history in decimal, a numeral that determines the length. *)
Theorem showHistory_reports_count (toString : Value -> jsstring) (v : Ui.View) :
  let h := conversationHistory (Ui.chat v) in
  let v' := fst (Ui.showHistory toString v) in
  (h = [] ->
   Ui.console_log v' = Ui.console_log v /\
   toastContainer (Ui.chat v') =
     toastContainer (Ui.chat v) ++ [info_toast (lit "No chat history")]) /\
  (h <> [] ->
   Ui.console_log v' =
     Ui.console_log v ++
     [[lit "Chat History:"; Ui.join nl (Ui.mapi (Ui.history_entry toString) 0 h)]] /\
   toastContainer (Ui.chat v') =
     toastContainer (Ui.chat v) ++
     [info_toast (Ui.decimal (length h) ++ lit " messages in history")]) /\
  (forall n, Ui.decimal n = Ui.decimal (length h) -> n = length h).
Proof.
  cbv zeta. split; [|split].
  - intros E.
    assert (R : Ui.showHistory toString v =
                Ui.liftV (showToast (VString (lit "No chat history")) (lit "info")) v).
    { unfold Ui.showHistory, Ui.bindV, Ui.getV. rewrite E. reflexivity. }
    rewrite R. split; reflexivity.
  - intros Hh.
    destruct (conversationHistory (Ui.chat v)) as [|t h] eqn:E; [congruence|].
    assert (R : fst (Ui.showHistory toString v) =
                Ui.set_chat
                  (with_toasts
                     [toast (lit "info") (toast_icon (lit "info"))
                        (escapeHtml_string
                           (Ui.decimal (S (length h)) ++ lit " messages in history"))]
                     (Ui.chat v))
                  (Ui.set_console_log
                     (Ui.console_log v ++
                      [[lit "Chat History:";
                        Ui.join nl (Ui.mapi (Ui.history_entry toString) 0 (t :: h))]])
                     v)).
    { unfold Ui.showHistory, Ui.bindV, Ui.getV. rewrite E. reflexivity. }
    rewrite R, count_text_plain. split; reflexivity.
  - intros n. apply decimal_injective.
Qed.

Lemma showHistory_reports_count_witness :
  conversationHistory (Ui.chat view0) <> [] /\
  toastContainer (Ui.chat (fst (Ui.showHistory (fun _ => []) view0))) =
    toastContainer (Ui.chat view0) ++ [info_toast (lit "1 messages in history")].
Proof.
  assert (H : conversationHistory (Ui.chat view0) <> []) by discriminate.
  split; [exact H|].
  exact (proj2 (proj1 (proj2 (showHistory_reports_count (fun _ => []) view0)) H)).
Defined.

(** ** The event loop with navigation and the keyboard *)

Lemma chat_sys_step_chat (u : Ui.UiSys) (ev : Event) :
  Ui.chat_sys (Ui.step_chat u ev) = step (Ui.chat_sys u) ev.
Proof. unfold Ui.step_chat, Ui.chat_sys. cbn. destruct (step _ ev). reflexivity. Qed.

Lemma Inv_with_toasts (ts : list Element) (s : State) (l : list Pending) :
  Inv {| page := s; inflight := l |} ->
  Inv {| page := with_toasts ts s; inflight := l |}.
Proof. unfold Inv. cbn. auto. Qed.

Lemma initializeApp_chat (v : Ui.View) :
  Ui.chat (fst (Ui.initializeApp v)) =
  with_toasts [toast (lit "success") [10003%N] (lit "Welcome to AI Q&amp;A Assistant")]
              (Ui.chat v).
Proof. reflexivity. Qed.

Lemma step_ui_Inv (toString : Value -> jsstring) (u : Ui.UiSys) (ev : Ui.UiEvent) :
  Inv (Ui.chat_sys u) -> Inv (Ui.chat_sys (Ui.step_ui toString u ev)).
Proof.
  intros H. destruct ev as [ev | key shift | i |]; cbn [Ui.step_ui].
  - rewrite chat_sys_step_chat. apply step_Inv, H.
  - destruct (Ui.keydown key shift); [|exact H].
    rewrite chat_sys_step_chat. apply step_Inv, H.
  - unfold Ui.chat_sys. cbn [Ui.view Ui.calls].
    destruct (handleNavigation_cases toString i (Ui.view u))
      as [[_ ->] | [_ [_ (ts & _ & ->)]]]; [exact H|].
    cbn [Ui.chat Ui.set_navItems]. apply Inv_with_toasts, H.
  - unfold Ui.chat_sys. cbn [Ui.view Ui.calls]. rewrite initializeApp_chat.
    apply Inv_with_toasts, H.
Qed.

(** X18. The single-call discipline survives the other handlers: with
    navigation clicks, key presses and the start-up greeting interleaved in
    any order with the events of the chat, the loading flag is still up
    exactly while a call is suspended, one call at most is, and at most one
    typing indicator is shown, none when idle. *)
Theorem ui_keeps_one_call
        (toString : Value -> jsstring) (u : Ui.UiSys) (evs : list Ui.UiEvent) :
  initial (Ui.chat_sys u) ->
  let sys := Ui.chat_sys (Ui.run_ui toString u evs) in
  (isLoading (page sys) = true <-> inflight sys <> []) /\
  length (inflight sys) <= 1 /\
  count is_typingIndicator (chatMessages (page sys)) <= 1 /\
  (isLoading (page sys) = false ->
   count is_typingIndicator (chatMessages (page sys)) = 0).
Proof.
  intros H0. cbv zeta. apply Inv_facts. apply initial_Inv in H0.
  revert u H0. unfold Ui.run_ui.
  induction evs as [|ev evs IH]; intros u H; [exact H|].
  cbn [fold_left]. apply IH, step_ui_Inv, H.
Qed.

Lemma ui_keeps_one_call_witness :
  initial (Ui.chat_sys ui0) /\
  length (inflight (Ui.chat_sys
     (Ui.run_ui (fun _ => []) ui0
        [Ui.Loaded; Ui.Keydown (lit "Enter") false; Ui.Navigate 1;
         Ui.Keydown (lit "Enter") false; Ui.Chat Submit]))) <= 1.
Proof.
  assert (H : initial (Ui.chat_sys ui0)) by (repeat split).
  split; [exact H|].
  exact (proj1 (proj2 (ui_keeps_one_call (fun _ => []) ui0 _ H))).
Defined.

(** ** Theorems on the toast timers *)

(** The toast list of the chat page is the list of the nodes shown. *)
Lemma showToast_agrees (message : Value) (type : jsstring)
      (scr : Toasts.Screen) (s : State) :
  map Toasts.node (Toasts.toasts scr) = toastContainer s ->
  map Toasts.node (Toasts.toasts (fst (Toasts.showToast message type scr))) =
    toastContainer (exec (showToast message type) s) /\
  snd (Toasts.showToast message type scr) = snd (showToast message type s).
Proof.
  intros H. unfold Toasts.showToast, showToast, exec, bind, eval.
  destruct (escapeHtml message) as [content|e]; cbn.
  - rewrite map_app, H. auto.
  - auto.
Qed.

Lemma In_remove_nth {A : Type} (k : nat) (l : list A) (x y : A) :
  nth_error l k = Some y -> In x l -> x = y \/ In x (remove_nth k l).
Proof.
  revert k. induction l as [|a l IH]; intros k Hk Hx; [destruct Hx|].
  destruct k as [|k]; cbn in *.
  - injection Hk as <-. destruct Hx; auto.
  - destruct Hx as [-> | Hx]; [auto|].
    destruct (IH k Hk Hx); auto.
Qed.

Lemma pending_uid (n : Toasts.ToastNode) :
  Toasts.task_uid (Toasts.pending n) = Toasts.uid n.
Proof. unfold Toasts.pending. destruct (Toasts.animation n); reflexivity. Qed.

Lemma map_uid_start_animation (u : nat) (l : list Toasts.ToastNode) :
  map Toasts.uid (map (Toasts.start_animation u) l) = map Toasts.uid l.
Proof.
  rewrite map_map. apply map_ext. intros n. unfold Toasts.start_animation.
  destruct (Nat.eqb (Toasts.uid n) u); reflexivity.
Qed.

(** Removing a toast keeps the remaining ones distinct. *)
Lemma removal_keeps_distinct (u : nat) (ns : list Toasts.ToastNode) :
  NoDup (map Toasts.uid ns) ->
  NoDup (map Toasts.uid
           (filter (fun n => negb (Nat.eqb (Toasts.uid n) u)) ns)).
Proof.
  intros Hnd. induction ns as [|n ns IH]; [exact Hnd|].
  apply NoDup_cons_iff in Hnd. destruct Hnd as [Hn Hns].
  cbn [filter]. destruct (negb (Nat.eqb (Toasts.uid n) u)); [|exact (IH Hns)].
  cbn [map]. apply NoDup_cons; [|exact (IH Hns)].
  intros Hin. apply Hn. apply in_map_iff in Hin.
  destruct Hin as (x & Hx & Hf). apply filter_In in Hf.
  rewrite <- Hx. apply in_map, (proj1 Hf).
Qed.

Lemma fire_Tidy (k : nat) (scr : Toasts.Screen) :
  Toasts.Tidy scr -> Toasts.Tidy (Toasts.fire k scr).
Proof.
  intros (Hnd & Hlt & Hp). unfold Toasts.fire.
  destruct (nth_error (Toasts.timers scr) k) as [tm|] eqn:E;
    [|repeat split; assumption].
  destruct (N.leb (Toasts.due tm) (Toasts.clock scr));
    [|repeat split; assumption].
  assert (Hkeep : forall n, In n (Toasts.toasts scr) ->
                            Toasts.uid n <> Toasts.task_uid (Toasts.task tm) ->
                            exists tm', In tm' (remove_nth k (Toasts.timers scr)) /\
                                        Toasts.task tm' = Toasts.pending n).
  { intros n Hn Hne. destruct (Hp n Hn) as (tm' & Hin & Ht).
    destruct (In_remove_nth k _ tm' tm E Hin) as [-> | Hin']; [|eauto].
    exfalso. apply Hne. rewrite Ht. symmetry. apply pending_uid. }
  destruct (Toasts.task tm) as [u|u]; cbn [Toasts.run_task Toasts.task_uid] in *;
    unfold Toasts.Tidy;
    cbn [Toasts.toasts Toasts.timers Toasts.next_uid].
  - split; [rewrite map_uid_start_animation; exact Hnd|]. split.
    + apply Forall_map. eapply Forall_impl; [|exact Hlt].
      intros n Hn. unfold Toasts.start_animation.
      destruct (Nat.eqb (Toasts.uid n) u); exact Hn.
    + intros n' Hn'. apply in_map_iff in Hn'. destruct Hn' as (n & <- & Hn).
      unfold Toasts.start_animation.
      destruct (Nat.eqb (Toasts.uid n) u) eqn:Eu.
      * apply Nat.eqb_eq in Eu. eexists. split; [apply in_or_app; right; left; reflexivity|].
        cbn. rewrite Eu. reflexivity.
      * apply Nat.eqb_neq in Eu. destruct (Hkeep n Hn Eu) as (tm' & Hin & Ht).
        exists tm'. split; [apply in_or_app; left; exact Hin | exact Ht].
  - split; [apply removal_keeps_distinct, Hnd|]. split.
    + apply Forall_forall. intros n Hn. apply filter_In in Hn.
      rewrite Forall_forall in Hlt. apply Hlt, Hn.
    + intros n Hn. apply filter_In in Hn. destruct Hn as [Hn Hu].
      apply negb_true_iff, Nat.eqb_neq in Hu. exact (Hkeep n Hn Hu).
Qed.

Lemma showToast_Tidy (message : Value) (type : jsstring) (scr : Toasts.Screen) :
  Toasts.Tidy scr -> Toasts.Tidy (fst (Toasts.showToast message type scr)).
Proof.
  intros (Hnd & Hlt & Hp). unfold Toasts.showToast.
  destruct (escapeHtml message) as [content|e]; [|repeat split; assumption].
  unfold Toasts.Tidy. cbn [fst Toasts.toasts Toasts.timers Toasts.next_uid].
  split; [|split].
  - rewrite map_app. cbn [map Toasts.uid].
    apply NoDup_app; [exact Hnd | constructor; [intros [] | constructor] |].
    intros x Hx [<- | []]. apply in_map_iff in Hx. destruct Hx as (n & Hu & Hn).
    rewrite Forall_forall in Hlt. specialize (Hlt n Hn). lia.
  - apply Forall_app. split.
    + eapply Forall_impl; [|exact Hlt]. intros n Hn. cbn in *. lia.
    + constructor; [cbn; lia | constructor].
  - intros n Hn. apply in_app_or in Hn. destruct Hn as [Hn | [<- | []]].
    + destruct (Hp n Hn) as (tm & Hin & Ht). exists tm.
      split; [apply in_or_app; left; exact Hin | exact Ht].
    + eexists. split; [apply in_or_app; right; left; reflexivity|]. reflexivity.
Qed.

(** X19. No toast is left behind: starting from a tidy screen (an empty
    one, say), after any run of toasts shown, timers fired and time
    passing, the toasts on the screen are distinct elements and each still
    has the timer of its next callback pending. *)
Theorem toasts_stay_tidy (scr : Toasts.Screen) (evs : list Toasts.ScreenEvent) :
  Toasts.Tidy scr -> Toasts.Tidy (Toasts.run_screen scr evs).
Proof.
  revert scr. unfold Toasts.run_screen.
  induction evs as [|ev evs IH]; intros scr H; [exact H|].
  cbn [fold_left]. apply IH. destruct ev as [m t | k | d]; cbn [Toasts.step_screen].
  - apply showToast_Tidy, H.
  - apply fire_Tidy, H.
  - exact H.
Qed.

Lemma toasts_stay_tidy_witness :
  Toasts.Tidy (Toasts.empty 0) /\
  Toasts.Tidy
    (Toasts.run_screen (Toasts.empty 0)
       [Toasts.Show (VString (lit "a")) (lit "info"); Toasts.Tick 3000;
        Toasts.Show (VString (lit "b")) (lit "error"); Toasts.Fire 0]).
Proof.
  assert (H : Toasts.Tidy (Toasts.empty 0)).
  { split; [constructor|]. split; [constructor|]. intros n []. }
  split; [exact H|].
  exact (toasts_stay_tidy (Toasts.empty 0) _ H).
Defined.

Lemma remove_nth_last {A : Type} (l : list A) (x : A) :
  remove_nth (length l) (l ++ [x]) = l.
Proof. induction l as [|a l IH]; [reflexivity|]. cbn. rewrite IH. reflexivity. Qed.

Lemma nth_error_last {A : Type} (l : list A) (x : A) :
  nth_error (l ++ [x]) (length l) = Some x.
Proof. induction l as [|a l IH]; [reflexivity | exact IH]. Qed.

Lemma start_animation_others (u : nat) (l : list Toasts.ToastNode) :
  Forall (fun n => Toasts.uid n < u) l ->
  map (Toasts.start_animation u) l = l.
Proof.
  induction 1 as [|n l Hn _ IH]; [reflexivity|].
  cbn [map]. rewrite IH. unfold Toasts.start_animation.
  assert (Nat.eqb (Toasts.uid n) u = false) as -> by (apply Nat.eqb_neq; lia).
  reflexivity.
Qed.

Lemma filter_others (u : nat) (l : list Toasts.ToastNode) :
  Forall (fun n => Toasts.uid n < u) l ->
  filter (fun n => negb (Nat.eqb (Toasts.uid n) u)) l = l.
Proof.
  induction 1 as [|n l Hn _ IH]; [reflexivity|].
  cbn [filter]. rewrite IH.
  assert (Nat.eqb (Toasts.uid n) u = false) as -> by (apply Nat.eqb_neq; lia).
  reflexivity.
Qed.

Lemma fire_last (ts : list Toasts.ToastNode) (tms : list Toasts.Timer)
      (next : nat) (now : N) (tm : Toasts.Timer) :
  N.leb (Toasts.due tm) now = true ->
  Toasts.fire (length tms)
    {| Toasts.toasts := ts; Toasts.timers := tms ++ [tm];
       Toasts.next_uid := next; Toasts.clock := now |} =
  Toasts.run_task (Toasts.task tm)
    {| Toasts.toasts := ts; Toasts.timers := tms;
       Toasts.next_uid := next; Toasts.clock := now |}.
Proof.
  intros H. unfold Toasts.fire.
  cbn [Toasts.toasts Toasts.timers Toasts.next_uid Toasts.clock].
  rewrite nth_error_last, H, remove_nth_last. reflexivity.
Qed.

(** X20. A toast comes and goes and leaves the screen as it was: shown on
    a tidy screen, once 3000 ms or more have passed and its first timer has
    fired, and 300 ms or more after that its second one, the toasts and the
    pending timers are exactly those from before it was shown. *)
Theorem toast_comes_and_goes
        (scr : Toasts.Screen) (m type : jsstring) (d1 d2 : N) :
  Toasts.Tidy scr ->
  (3000 <= d1)%N -> (300 <= d2)%N ->
  let k := length (Toasts.timers scr) in
  Toasts.run_screen scr
    [Toasts.Show (VString m) type; Toasts.Tick d1; Toasts.Fire k;
     Toasts.Tick d2; Toasts.Fire k] =
  {| Toasts.toasts := Toasts.toasts scr;
     Toasts.timers := Toasts.timers scr;
     Toasts.next_uid := S (Toasts.next_uid scr);
     Toasts.clock := (Toasts.clock scr + d1 + d2)%N |}.
Proof.
  intros (_ & Hlt & _) H1 H2. cbv zeta.
  destruct scr as [ts tms next now]. cbn [Toasts.toasts Toasts.timers
    Toasts.next_uid Toasts.clock] in *.
  unfold Toasts.run_screen. cbn [fold_left Toasts.step_screen].
  unfold Toasts.tick.
  cbn [Toasts.showToast escapeHtml fst Toasts.toasts Toasts.timers
       Toasts.next_uid Toasts.clock].
  rewrite fire_last by (apply N.leb_le; cbn; lia).
  cbn [Toasts.run_task Toasts.task Toasts.toasts Toasts.timers
       Toasts.next_uid Toasts.clock].
  rewrite fire_last by (apply N.leb_le; cbn; lia).
  cbn [Toasts.run_task Toasts.task Toasts.toasts Toasts.timers
       Toasts.next_uid Toasts.clock].
  rewrite map_app, filter_app, (start_animation_others next ts Hlt),
    (filter_others next ts Hlt).
  cbn [map filter]. unfold Toasts.start_animation. cbn [Toasts.uid].
  rewrite Nat.eqb_refl. cbn [Toasts.uid negb]. rewrite Nat.eqb_refl.
  cbn [negb]. rewrite app_nil_r. reflexivity.
Qed.

Lemma toast_comes_and_goes_witness :
  Toasts.Tidy (Toasts.empty 0) /\ (3000 <= 3000)%N /\ (300 <= 301)%N /\
  Toasts.run_screen (Toasts.empty 0)
    [Toasts.Show (VString (lit "a")) (lit "info"); Toasts.Tick 3000;
     Toasts.Fire 0; Toasts.Tick 301; Toasts.Fire 0] =
  {| Toasts.toasts := []; Toasts.timers := []; Toasts.next_uid := 1;
     Toasts.clock := 3301 |}.
Proof.
  assert (H : Toasts.Tidy (Toasts.empty 0)).
  { split; [constructor|]. split; [constructor|]. intros n []. }
  assert (H1 : (3000 <= 3000)%N) by lia.
  assert (H2 : (300 <= 301)%N) by lia.
  split; [exact H|]. split; [exact H1|]. split; [exact H2|].
  exact (toast_comes_and_goes (Toasts.empty 0) (lit "a") (lit "info")
           3000 301 H H1 H2).
Defined.

(** X21. Toasts are timed independently: a timer that fires changes the
    toast it was set for and no other; the rest of the screen keeps its
    toasts, their content and their order. *)
Theorem timer_acts_on_its_toast
        (k : nat) (scr : Toasts.Screen) (tm : Toasts.Timer) :
  nth_error (Toasts.timers scr) k = Some tm ->
  let others n :=
    negb (Nat.eqb (Toasts.uid n) (Toasts.task_uid (Toasts.task tm))) in
  filter others (Toasts.toasts (Toasts.fire k scr)) =
  filter others (Toasts.toasts scr).
Proof.
  intros E. cbv zeta. unfold Toasts.fire. rewrite E.
  destruct (N.leb (Toasts.due tm) (Toasts.clock scr)); [|reflexivity].
  destruct (Toasts.task tm) as [u|u];
    cbn [Toasts.run_task Toasts.toasts Toasts.task_uid].
  - induction (Toasts.toasts scr) as [|n l IH]; [reflexivity|].
    cbn [map filter]. unfold Toasts.start_animation at 1 2.
    destruct (Nat.eqb (Toasts.uid n) u) eqn:Eu;
      cbn [Toasts.uid]; rewrite Eu; cbn [negb]; [exact IH|].
    rewrite IH. reflexivity.
  - induction (Toasts.toasts scr) as [|n l IH]; [reflexivity|].
    cbn [filter]. destruct (Nat.eqb (Toasts.uid n) u) eqn:Eu; cbn [negb].
    + exact IH.
    + cbn [filter]. rewrite Eu. cbn [negb]. rewrite IH. reflexivity.
Qed.

Lemma timer_acts_on_its_toast_witness :
  nth_error (Toasts.timers two_toasts) 0 =
    Some {| Toasts.due := 3000; Toasts.task := Toasts.SlideOut 0 |} /\
  filter (fun n => negb (Nat.eqb (Toasts.uid n) 0))
         (Toasts.toasts (Toasts.fire 0 two_toasts)) =
  filter (fun n => negb (Nat.eqb (Toasts.uid n) 0))
         (Toasts.toasts two_toasts).
Proof.
  split; [reflexivity|].
  exact (timer_acts_on_its_toast 0 two_toasts
           {| Toasts.due := 3000; Toasts.task := Toasts.SlideOut 0 |} eq_refl).
Defined.
